(** * dd-manager: matcher, ruleset reload, monitor sync and templating

    A shallow embedding of
      - pkg/config/config.go       (ruleset store and matcher),
      - pkg/util/datadog.go        (provisioned-state reader and sync step),
      - pkg/handler/deployments.go (deployment handlers, template rendering)
    together with the properties the specification states about them.

    Conventions.
      - A Go [map[string]string] is a [gmap string string]; where the code
        holds a map that may be nil and writes to it, the map is an [option].
      - A Go slice whose nil-ness is observable (through reflect.DeepEqual) is
        a [slice]: [None] is the nil slice.
      - A Go pointer that the code dereferences is an [option]; dereferencing
        [None] is a run-time panic.
      - A Go result pair [(v, err)] is a pair whose second component is an
        [option error].
      - Calls of the Datadog client and logrus calls are recorded, in program
        order, in an event trace.  The one exception is the info line inside
        the matcher's inner loop, which is left out so that the matcher stays
        a function: it changes neither data nor control flow.  Module
        [OnConfig] gives the matcher with that line and with the dereference
        of [config.Rulesets]. *)

From stdpp Require Import base option list strings gmap fin_maps pretty.
From Stdlib Require Import ZArith Ascii.

Open Scope string_scope.
Open Scope Z_scope.
Open Scope list_scope.

(** ** Run-time model: slices and panics *)

Module Go.

(** Go's [error] interface, by its message. *)
Definition error := string.

(** A slice value: [None] is nil, [Some l] a non-nil slice with elements
    [l].  Only the elements up to the length are part of the value. *)
Definition slice (A : Type) := option (list A).

Definition elems {A} (s : slice A) : list A := default [] s.

(** [append(s, x)]: the result is never nil.  Whether the backing array is
    shared or fresh, the operand [s] keeps its own length, so its elements
    are the same after the call. *)
Definition append {A} (s : slice A) (x : A) : slice A := Some (elems s ++ [x]).

(** [for _, x := range xs { x = body x }]: the iteration variable is a copy
    of the element, and an assignment to it (or to one of its fields) is not
    an assignment to [xs[i]].  The result is [xs] as the loop leaves it. *)
Definition rangeByValue {A} (xs : list A) (body : A → A) : list A :=
  fold_left (fun xs_now x => let x := body x in xs_now) xs xs.

Inductive outcome (A : Type) :=
| Ret (a : A)
| Panic (msg : string).
Arguments Ret {A} a.
Arguments Panic {A} msg.

Definition nil_deref : string := "invalid memory address or nil pointer dereference".
Definition nil_map_write : string := "assignment to entry in nil map".

End Go.
Import Go.

(** ** Data model *)

(** The types of github.com/zorkian/go-datadog-api the program uses,
    restricted to the fields it reads or writes.  In that library every
    scalar field is a pointer. *)
Module datadog.

(** Thresholds are pointers to json.Number, kept as the number's text. *)
Record ThresholdCount := {
  Ok : option string;
  Critical : option string;
  Warning : option string;
  Unknown : option string;
  CriticalRecovery : option string;
  WarningRecovery : option string
}.

Record Options := {
  NoDataTimeframe : Z;
  NotifyAudit : option bool;
  NotifyNoData : option bool;
  RenotifyInterval : option Z;
  NewHostDelay : option Z;
  EvaluationDelay : option Z;
  TimeoutH : option Z;
  EscalationMessage : option string;
  Thresholds : option ThresholdCount;
  RequireFullWindow : option bool;
  Locked : option bool
}.

Record Monitor := {
  Id : option Z;
  Type_ : option string;
  Query : option string;
  Name : option string;
  Message : option string;
  Tags : slice string;
  Opts : option Options
}.

Definition set_Tags (m : Monitor) (tags : slice string) : Monitor :=
  {| Id := Id m; Type_ := Type_ m; Query := Query m; Name := Name m;
     Message := Message m; Tags := tags; Opts := Opts m |}.

Definition set_Id (m : Monitor) (id : option Z) : Monitor :=
  {| Id := id; Type_ := Type_ m; Query := Query m; Name := Name m;
     Message := Message m; Tags := Tags m; Opts := Opts m |}.

End datadog.

(** The monitor type of the program's own [conf] package.  Its declaration is
    not among the sources; the fields are those [toDdMonitor] and [toMonitor]
    in pkg/util/datadog.go read and write, with the types these uses force
    (a threshold is copied to and from a datadog threshold unchanged). *)
Module conf.

Record Thresholds := {
  Ok : option string;
  Critical : option string;
  Warning : option string;
  Unknown : option string;
  CriticalRecovery : option string;
  WarningRecovery : option string
}.

Record Monitor := {
  Name : string;
  Type_ : string;
  Query : string;
  Message : string;
  Tags : slice string;
  NoDataTimeframe : Z;
  NotifyAudit : bool;
  NotifyNoData : bool;
  RenotifyInterval : Z;
  NewHostDelay : Z;
  EvaluationDelay : Z;
  Timeout : Z;
  EscalationMessage : string;
  Thresholds_ : Thresholds;
  RequireFullWindow : bool;
  Locked : bool
}.

Definition set_Name (m : Monitor) (s : string) : Monitor :=
  {| Name := s; Type_ := Type_ m; Query := Query m; Message := Message m;
     Tags := Tags m; NoDataTimeframe := NoDataTimeframe m;
     NotifyAudit := NotifyAudit m; NotifyNoData := NotifyNoData m;
     RenotifyInterval := RenotifyInterval m; NewHostDelay := NewHostDelay m;
     EvaluationDelay := EvaluationDelay m; Timeout := Timeout m;
     EscalationMessage := EscalationMessage m; Thresholds_ := Thresholds_ m;
     RequireFullWindow := RequireFullWindow m; Locked := Locked m |}.

Definition set_Query (m : Monitor) (s : string) : Monitor :=
  {| Name := Name m; Type_ := Type_ m; Query := s; Message := Message m;
     Tags := Tags m; NoDataTimeframe := NoDataTimeframe m;
     NotifyAudit := NotifyAudit m; NotifyNoData := NotifyNoData m;
     RenotifyInterval := RenotifyInterval m; NewHostDelay := NewHostDelay m;
     EvaluationDelay := EvaluationDelay m; Timeout := Timeout m;
     EscalationMessage := EscalationMessage m; Thresholds_ := Thresholds_ m;
     RequireFullWindow := RequireFullWindow m; Locked := Locked m |}.

Definition set_Message (m : Monitor) (s : string) : Monitor :=
  {| Name := Name m; Type_ := Type_ m; Query := Query m; Message := s;
     Tags := Tags m; NoDataTimeframe := NoDataTimeframe m;
     NotifyAudit := NotifyAudit m; NotifyNoData := NotifyNoData m;
     RenotifyInterval := RenotifyInterval m; NewHostDelay := NewHostDelay m;
     EvaluationDelay := EvaluationDelay m; Timeout := Timeout m;
     EscalationMessage := EscalationMessage m; Thresholds_ := Thresholds_ m;
     RequireFullWindow := RequireFullWindow m; Locked := Locked m |}.

Definition set_EscalationMessage (m : Monitor) (s : string) : Monitor :=
  {| Name := Name m; Type_ := Type_ m; Query := Query m; Message := Message m;
     Tags := Tags m; NoDataTimeframe := NoDataTimeframe m;
     NotifyAudit := NotifyAudit m; NotifyNoData := NotifyNoData m;
     RenotifyInterval := RenotifyInterval m; NewHostDelay := NewHostDelay m;
     EvaluationDelay := EvaluationDelay m; Timeout := Timeout m;
     EscalationMessage := s; Thresholds_ := Thresholds_ m;
     RequireFullWindow := RequireFullWindow m; Locked := Locked m |}.

End conf.

(** An Annotation represents a kubernetes annotation. *)
Record Annotation := {
  a_Name : string;
  a_Value : string
}.

(** A MonitorSet: a collection of monitors that applies to an object. *)
Record MonitorSet := {
  ObjectType : string;
  Annotations : list Annotation;
  BoundObjects : list string;
  Monitors : list datadog.Monitor
}.

(** [ruleset]: [ClusterVariables] is a Go map, nil unless something made it. *)
Record ruleset := {
  ClusterVariables : option (gmap string string);
  MonitorSets : list MonitorSet
}.

(** [Config]: [Rulesets] is a pointer, nil until the first reload. *)
Record Config := {
  DatadogAPIKey : string;
  DatadogAppKey : string;
  ClusterName : string;
  OwnerTag : string;
  MonitorDefinitionsPath : list string;
  Rulesets : option ruleset;
  DryRun : bool
}.

Definition set_Rulesets (config : Config) (r : option ruleset) : Config :=
  {| DatadogAPIKey := DatadogAPIKey config; DatadogAppKey := DatadogAppKey config;
     ClusterName := ClusterName config; OwnerTag := OwnerTag config;
     MonitorDefinitionsPath := MonitorDefinitionsPath config;
     Rulesets := r; DryRun := DryRun config |}.

(** The live object the handlers receive: appsv1.Deployment, restricted to
    the metadata the program and its templates read. *)
Record Deployment := {
  d_Name : string;
  d_Namespace : string;
  d_Annotations : gmap string string
}.

(** ** Events and the effect monad *)

Inductive BackendCall :=
| GetMonitorsByTags (tags : list string)
| CreateMonitor (m : datadog.Monitor)
| UpdateMonitor (m : datadog.Monitor)
| DeleteMonitorById (id : Z).

Inductive Level := Info | Error.

Inductive LogArg :=
| AStr (s : string)
| AStrs (l : list string)
| AId (id : option Z).

Inductive Event :=
| ELog (lvl : Level) (format : string) (args : list LogArg)
| ECall (c : BackendCall).

(** A computation: the events it emitted, and how it ended. *)
Record M (A : Type) := MkM {
  trace : list Event;
  result : outcome A
}.
Arguments MkM {A} trace result.
Arguments trace {A} m.
Arguments result {A} m.

Definition ret {A} (a : A) : M A := MkM [] (Ret a).

Definition bind {A B} (m : M A) (f : A → M B) : M B :=
  match result m with
  | Ret a => MkM (trace m ++ trace (f a)) (result (f a))
  | Panic msg => MkM (trace m) (Panic msg)
  end.

#[global] Instance M_ret : MRet M := @ret.
#[global] Instance M_bind : MBind M := fun A B f m => bind m f.

Definition emit (e : Event) : M unit := MkM [e] (Ret tt).
Definition log (lvl : Level) (format : string) (args : list LogArg) : M unit :=
  emit (ELog lvl format args).
Definition panic {A} (msg : string) : M A := MkM [] (Panic msg).

(** [*p] *)
Definition deref {A} (p : option A) : M A :=
  match p with
  | Some a => ret a
  | None => panic nil_deref
  end.

(** [for _, x := range xs { acc = body acc x }] with an effectful body. *)
Fixpoint forRange {A S} (xs : list A) (body : S → A → M S) (s : S) : M S :=
  match xs with
  | [] => ret s
  | x :: rest => s' ← body s x; forRange rest body s'
  end.

(** The backend calls of a trace, in order. *)
Definition calls (t : list Event) : list BackendCall :=
  omap (fun e => match e with ECall c => Some c | ELog _ _ _ => None end) t.

(** The error-level log lines of a trace, in order. *)
Definition errorsLogged (t : list Event) : list string :=
  omap (fun e => match e with ELog Error f _ => Some f | _ => None end) t.

(** A computation that emits no backend call. *)
Definition silent {A} (m : M A) : Prop := calls (trace m) = [].

(** ** Matcher (pkg/config/config.go) *)

Module Matcher.

(** The inner loop of [getMatchingRulesets] over a rule's required
    annotations; the argument [hasAllAnnotations] is the flag's value on
    entry, the result its value when the loop is left (by exhaustion or by
    [break]). *)
Fixpoint annotationLoop (annotations : gmap string string)
    (required : list Annotation) (hasAllAnnotations : bool) : bool :=
  match required with
  | [] => hasAllAnnotations
  | annotation :: rest =>
      match annotations !! a_Name annotation with
      | Some val =>
          if decide (val = a_Value annotation)
          then annotationLoop annotations rest true
          else false
      | None => false
      end
  end.

(** One iteration of the outer loop: [validMSets] after the body. *)
Definition ruleStep (annotations : gmap string string) (objectType : string)
    (validMSets : list MonitorSet) (monitorSet : MonitorSet) : list MonitorSet :=
  if decide (ObjectType monitorSet = objectType) then
    if annotationLoop annotations (Annotations monitorSet) false
    then validMSets ++ [monitorSet]
    else validMSets
  else validMSets.

(** [config.getMatchingRulesets], on the ruleset [config.Rulesets] points to. *)
Definition getMatchingRulesets (rules : ruleset)
    (annotations : gmap string string) (objectType : string) : list MonitorSet :=
  fold_left (ruleStep annotations objectType) (MonitorSets rules) [].

(** [config.GetMatchingMonitors]: the monitors of all matching rules,
    appended in order. *)
Definition GetMatchingMonitors (rules : ruleset)
    (annotations : gmap string string) (objectType : string) : list datadog.Monitor :=
  fold_left (fun validMonitors mSet => validMonitors ++ Monitors mSet)
    (getMatchingRulesets rules annotations objectType) [].

Definition contains (slice : list string) (key : string) : bool :=
  existsb (fun element => bool_decide (element = key)) slice.

End Matcher.

(** ** Namespace binding (pkg/config/config.go) *)

(** What [kubeClient.Client.CoreV1().Namespaces().Get] answers: the
    namespace's annotations and the error, as Go returns them. *)
Record KubeClient := {
  GetNamespace : string → gmap string string * option error
}.

Module Binding.
Import Matcher.

Definition marker : string := "dd-manager:bound_object".

(** The body of both tagging loops, on the iteration variable. *)
Definition tagBody (tag : string) (monitor : datadog.Monitor) : datadog.Monitor :=
  datadog.set_Tags monitor (append (datadog.Tags monitor) tag).

(** [mSet.AppendTag(tag)]: the receiver after the call.  The loop ranges over
    [mSet.Monitors] by value. *)
Definition AppendTag (mSet : MonitorSet) (tag : string) : MonitorSet :=
  {| ObjectType := ObjectType mSet; Annotations := Annotations mSet;
     BoundObjects := BoundObjects mSet;
     Monitors := rangeByValue (Monitors mSet) (tagBody tag) |}.

(** One iteration of the loop over the matching binding rules:
    [linkedMonitors] after the body. *)
Definition boundStep (objectType : string)
    (linkedMonitors : list datadog.Monitor) (mSet : MonitorSet) : list datadog.Monitor :=
  if contains (BoundObjects mSet) objectType then
    let mSet := AppendTag mSet marker in
    let monitors := rangeByValue (Monitors mSet) (tagBody marker) in
    linkedMonitors ++ monitors
  else linkedMonitors.

Definition GetBoundMonitors (kube : KubeClient) (rules : ruleset)
    (namespace : string) (objectType : string) : M (list datadog.Monitor) :=
  let '(ns_Annotations, err) := GetNamespace kube namespace in
  match err with
  | Some e =>
      log Error "Error getting namespace %s: %+v" [AStr namespace; AStr e];;
      mret []
  | None =>
      let mSets := getMatchingRulesets rules ns_Annotations "binding" in
      mret (fold_left (boundStep objectType) mSets [])
  end.

(** A tag list carries the marker. *)
Definition hasMarker (m : datadog.Monitor) : Prop := marker ∈ elems (datadog.Tags m).

End Binding.

(** ** Ruleset store (pkg/config/config.go) *)

(** The two collaborators of a reload: [loadFromPath] (file or HTTP read) and
    [yaml.Unmarshal] into a fresh [ruleset]. *)
Record Sources := {
  loadFromPath : string → string * option error;
  Unmarshal : string → ruleset * option error
}.

Module Store.

(** [m[k] = v] on a map that may be nil. *)
Definition mapAssign (m : option (gmap string string)) (k v : string)
    : M (option (gmap string string)) :=
  match m with
  | Some entries => mret (Some (<[k := v]> entries))
  | None => panic nil_map_write
  end.

(** [for k, v := range src { dst[k] = v }]; ranging over a nil map runs the
    body zero times. *)
Definition copyVariables (dst src : option (gmap string string))
    : M (option (gmap string string)) :=
  forRange (map_to_list (default ∅ src))
    (fun dst_now kv => mapAssign dst_now kv.1 kv.2) dst.

(** The body of the loop over the configured sources: [rulesetCollection]
    after the body; both [continue]s leave it as it was. *)
Definition reloadStep (src : Sources) (paths : list string)
    (rulesetCollection : ruleset) (cfg : string) : M ruleset :=
  log Info "Loading rulesets from %s" [AStrs paths];;
  let '(yml, err) := loadFromPath src cfg in
  match err with
  | Some e =>
      log Error "Could not load config file %s: %v" [AStr cfg; AStr e];;
      mret rulesetCollection
  | None =>
      let '(rSet, err) := Unmarshal src yml in
      match err with
      | Some e =>
          log Error "Error unmarshalling config file %s: %v" [AStr cfg; AStr e];;
          mret rulesetCollection
      | None =>
          let monitorSets := MonitorSets rulesetCollection ++ MonitorSets rSet in
          vars ← copyVariables (ClusterVariables rulesetCollection) (ClusterVariables rSet);
          mret {| ClusterVariables := vars; MonitorSets := monitorSets |}
      end
  end.

(** [config.reloadRulesets()]: the configuration after the call.  The
    collection starts as [&ruleset{}]: no rules and a nil variable map. *)
Definition reloadRulesets (src : Sources) (config : Config) : M Config :=
  let rulesetCollection := {| ClusterVariables := None; MonitorSets := [] |} in
  rulesetCollection ← forRange (MonitorDefinitionsPath config)
                        (reloadStep src (MonitorDefinitionsPath config)) rulesetCollection;
  mret (set_Rulesets config (Some rulesetCollection)).

(** A source loads when it is both fetched and parsed without error. *)
Definition loaded (src : Sources) (cfg : string) : option ruleset :=
  match loadFromPath src cfg with
  | (yml, None) =>
      match Unmarshal src yml with
      | (rSet, None) => Some rSet
      | (_, Some _) => None
      end
  | (_, Some _) => None
  end.

(** The rules of the sources that load, in source order. *)
Definition loadedRules (src : Sources) (paths : list string) : list MonitorSet :=
  mjoin (omap (fun cfg => MonitorSets <$> loaded src cfg) paths).

(** A parsed document defines cluster variables when its map has an entry. *)
Definition definesVariables (rSet : ruleset) : Prop :=
  default ∅ (ClusterVariables rSet) ≠ (∅ : gmap string string).

(** The source at [cfg] loads and its document defines cluster variables. *)
Definition sourceDefinesVariables (src : Sources) (cfg : string) : Prop :=
  match loaded src cfg with
  | Some rSet => definesVariables rSet
  | None => False
  end.

#[global] Instance definesVariables_dec rSet : Decision (definesVariables rSet).
Proof. unfold definesVariables. apply _. Defined.

#[global] Instance sourceDefinesVariables_dec src cfg :
  Decision (sourceDefinesVariables src cfg).
Proof. unfold sourceDefinesVariables. destruct (loaded src cfg); apply _. Defined.

End Store.

(** ** Provisioned-state reader and sync step (pkg/util/datadog.go) *)

(** What the Datadog client answers to each call, as Go result pairs. *)
Record DatadogClient := {
  onGetMonitorsByTags : list string → list datadog.Monitor * option error;
  onCreateMonitor : datadog.Monitor → option datadog.Monitor * option error;
  onUpdateMonitor : datadog.Monitor → option error;
  onDeleteMonitor : Z → option error
}.

Module Sync.

Definition toDdMonitor (in_ : conf.Monitor) : datadog.Monitor :=
  {| datadog.Id := None;
     datadog.Type_ := Some (conf.Type_ in_);
     datadog.Query := Some (conf.Query in_);
     datadog.Name := Some (conf.Name in_);
     datadog.Message := Some (conf.Message in_);
     datadog.Tags := conf.Tags in_;
     datadog.Opts := Some
       {| datadog.NoDataTimeframe := conf.NoDataTimeframe in_;
          datadog.NotifyAudit := Some (conf.NotifyAudit in_);
          datadog.NotifyNoData := Some (conf.NotifyNoData in_);
          datadog.RenotifyInterval := Some (conf.RenotifyInterval in_);
          datadog.NewHostDelay := Some (conf.NewHostDelay in_);
          datadog.EvaluationDelay := Some (conf.EvaluationDelay in_);
          datadog.TimeoutH := Some (conf.Timeout in_);
          datadog.EscalationMessage := Some (conf.EscalationMessage in_);
          datadog.Thresholds := Some
            {| datadog.Ok := conf.Ok (conf.Thresholds_ in_);
               datadog.Critical := conf.Critical (conf.Thresholds_ in_);
               datadog.Warning := conf.Warning (conf.Thresholds_ in_);
               datadog.Unknown := conf.Unknown (conf.Thresholds_ in_);
               datadog.CriticalRecovery := conf.CriticalRecovery (conf.Thresholds_ in_);
               datadog.WarningRecovery := conf.WarningRecovery (conf.Thresholds_ in_) |};
          datadog.RequireFullWindow := Some (conf.RequireFullWindow in_);
          datadog.Locked := Some (conf.Locked in_) |} |}.

(** [toMonitor]: every [*p] and every field access through a pointer panics
    on nil.  [Locked] is not among the fields the composite literal sets, so
    it has its zero value. *)
Definition toMonitor (in_ : datadog.Monitor) : M conf.Monitor :=
  options ← deref (datadog.Opts in_);
  th ← deref (datadog.Thresholds options);
  let thresholds :=
    {| conf.Ok := datadog.Ok th;
       conf.Critical := datadog.Critical th;
       conf.Warning := datadog.Warning th;
       conf.Unknown := datadog.Unknown th;
       conf.CriticalRecovery := datadog.CriticalRecovery th;
       conf.WarningRecovery := datadog.WarningRecovery th |} in
  name ← deref (datadog.Name in_);
  type ← deref (datadog.Type_ in_);
  query ← deref (datadog.Query in_);
  message ← deref (datadog.Message in_);
  notifyAudit ← deref (datadog.NotifyAudit options);
  notifyNoData ← deref (datadog.NotifyNoData options);
  renotifyInterval ← deref (datadog.RenotifyInterval options);
  newHostDelay ← deref (datadog.NewHostDelay options);
  evaluationDelay ← deref (datadog.EvaluationDelay options);
  timeout ← deref (datadog.TimeoutH options);
  escalationMessage ← deref (datadog.EscalationMessage options);
  requireFullWindow ← deref (datadog.RequireFullWindow options);
  mret {| conf.Name := name;
          conf.Type_ := type;
          conf.Query := query;
          conf.Message := message;
          conf.Tags := datadog.Tags in_;
          conf.NoDataTimeframe := datadog.NoDataTimeframe options;
          conf.NotifyAudit := notifyAudit;
          conf.NotifyNoData := notifyNoData;
          conf.RenotifyInterval := renotifyInterval;
          conf.NewHostDelay := newHostDelay;
          conf.EvaluationDelay := evaluationDelay;
          conf.Timeout := timeout;
          conf.EscalationMessage := escalationMessage;
          conf.Thresholds_ := thresholds;
          conf.RequireFullWindow := requireFullWindow;
          conf.Locked := false |}.

#[global] Instance Thresholds_eq_dec : EqDecision conf.Thresholds.
Proof. solve_decision. Defined.

#[global] Instance Monitor_eq_dec : EqDecision conf.Monitor.
Proof. solve_decision. Defined.

(** [reflect.DeepEqual] on two non-nil [*conf.Monitor]: the structs are
    compared field by field; strings, integers and booleans by value,
    pointers by what they point to, slices by nil-ness, length and the
    elements position by position. *)
Definition DeepEqual (a b : conf.Monitor) : bool := bool_decide (a = b).

Section WithClient.
Variable client : DatadogClient.

Definition GetProvisionedMonitors (config : Config)
    : M (list datadog.Monitor * option error) :=
  emit (ECall (GetMonitorsByTags [OwnerTag config]));;
  mret (onGetMonitorsByTags client [OwnerTag config]).

(** The search loop of [GetProvisionedMonitor]: [Some] is the early return. *)
Fixpoint findByName (monitors : list datadog.Monitor) (name : string)
    : M (option datadog.Monitor) :=
  match monitors with
  | [] => mret None
  | ddMonitor :: rest =>
      ddName ← deref (datadog.Name ddMonitor);
      if decide (ddName = name) then mret (Some ddMonitor)
      else findByName rest name
  end.

Definition GetProvisionedMonitor (config : Config) (monitor : conf.Monitor)
    : M (option datadog.Monitor * option error) :=
  '(monitors, err) ← GetProvisionedMonitors config;
  match err with
  | Some e =>
      log Error "Error getting monitors: %v" [AStr e];;
      mret (None, Some e)
  | None =>
      found ← findByName monitors (conf.Name monitor);
      match found with
      | Some ddMonitor => mret (Some ddMonitor, None)
      | None => mret (None, Some "Monitor does not exist.")
      end
  end.

Definition createMonitor (config : Config) (monitor : datadog.Monitor)
    : M (option datadog.Monitor * option error) :=
  emit (ECall (CreateMonitor monitor));;
  mret (onCreateMonitor client monitor).

Definition updateMonitor (config : Config) (monitor : datadog.Monitor)
    : M (option error) :=
  emit (ECall (UpdateMonitor monitor));;
  mret (onUpdateMonitor client monitor).

(** [AddOrUpdate]: the result pair is (the monitor's id pointer, the error). *)
Definition AddOrUpdate (config : Config) (monitor : conf.Monitor)
    : M (option Z * option error) :=
  '(ddMonitor, err) ← GetProvisionedMonitor config monitor;
  match err with
  | Some _ =>
      '(provisioned, err) ← createMonitor config (toDdMonitor monitor);
      match err with
      | Some e =>
          log Error "Error creating monitor %s: %s" [AStr (conf.Name monitor); AStr e];;
          mret (None, Some e)
      | None =>
          provisioned ← deref provisioned;
          mret (datadog.Id provisioned, None)
      end
  | None =>
      converted ← (ddMonitor ← deref ddMonitor; toMonitor ddMonitor);
      if DeepEqual monitor converted then
        ddMonitor ← deref ddMonitor;
        log Info "Monitor %d exists and is up to date." [AId (datadog.Id ddMonitor)];;
        mret (datadog.Id ddMonitor, None)
      else
        err ← updateMonitor config (toDdMonitor monitor);
        ddMonitor ← deref ddMonitor;
        match err with
        | Some e =>
            log Error "Could not update monitor %d: %s" [AId (datadog.Id ddMonitor); AStr e];;
            mret (datadog.Id ddMonitor, Some e)
        | None => mret (datadog.Id ddMonitor, None)
        end
  end.

Definition DeleteMonitor (config : Config) (monitor : conf.Monitor)
    : M (option error) :=
  '(ddMonitor, err) ← GetProvisionedMonitor config monitor;
  match err with
  | Some _ =>
      ddMonitor ← deref ddMonitor;
      id ← deref (datadog.Id ddMonitor);
      emit (ECall (DeleteMonitorById id));;
      mret (onDeleteMonitor client id)
  | None => mret None
  end.

End WithClient.

End Sync.

(** ** Deployment handlers (pkg/handler/deployments.go) *)

(** Go's text/template as the handlers use it: [template.New(..).Parse]
    returns a template pointer and an error (the pointer is nil when the text
    does not parse); [Execute] appends what it has rendered to the buffer and
    returns an error if it stopped early. *)
Record TemplateEngine := {
  Template : Type;
  Parse : string → option Template * option error;
  Execute : Template → Deployment → string * option error
}.

Module Handler.

Section WithEngine.
Variable engine : TemplateEngine.

(** [cfg.GetMatchingMonitors] of the [conf] package on [cfg := conf.New()].
    The package is not among the sources; the handlers only pass its result
    on, so it is a parameter. *)
Variable GetMatchingMonitors : gmap string string → string → list conf.Monitor.

(** [err = t.Execute(&tpl, deployment); if err != nil { log ... }]: the
    buffer after the statement.  A method call through a nil template
    pointer panics inside [Execute]. *)
Definition executeInto (t : option (Template engine)) (deployment : Deployment)
    (tpl : string) (format : string) : M string :=
  t ← deref t;
  let '(written, err) := Execute engine t deployment in
  let tpl := tpl +:+ written in
  match err with
  | Some e => log Error format [AStr e];; mret tpl
  | None => mret tpl
  end.

(** [applyDeploymentTemplate]: the monitor [monitor] points to, after the
    call.  The parse errors are discarded ([_]); [tpl.Reset()] empties the
    buffer between fields.  In the source the format string of the query's
    log line lacks its closing quote; the line is read as its three
    siblings are written. *)
Definition applyDeploymentTemplate (deployment : Deployment) (monitor : conf.Monitor)
    : M conf.Monitor :=
  let tpl := EmptyString in
  let '(name, _) := Parse engine (conf.Name monitor) in
  let '(query, _) := Parse engine (conf.Query monitor) in
  let '(msg, _) := Parse engine (conf.Message monitor) in
  let '(em, _) := Parse engine (conf.EscalationMessage monitor) in
  tpl ← executeInto name deployment tpl "Error templating name: %s";
  let monitor := conf.set_Name monitor tpl in
  let tpl := EmptyString in
  tpl ← executeInto query deployment tpl "Error templating query: %s";
  let monitor := conf.set_Query monitor tpl in
  let tpl := EmptyString in
  tpl ← executeInto msg deployment tpl "Error templating message: %s";
  let monitor := conf.set_Message monitor tpl in
  let tpl := EmptyString in
  tpl ← executeInto em deployment tpl "Error templating escalation message: %s";
  let monitor := conf.set_EscalationMessage monitor tpl in
  mret monitor.

(** The loop all three handlers share.  [&monitor] is the address of the
    iteration variable, so the rendered monitor is dropped at the end of each
    iteration. *)
Definition templateAll (deployment : Deployment) (monitors : list conf.Monitor) : M unit :=
  forRange monitors
    (fun _ monitor =>
       log Info "looping monitor %s" [AStr (conf.Name monitor)];;
       _ ← applyDeploymentTemplate deployment monitor;
       mret tt) tt.

Definition OnUpdatedDeployment (deployment : Deployment) : M unit :=
  let monitors := GetMatchingMonitors (d_Annotations deployment) "deployment" in
  templateAll deployment monitors.

Definition OnCreatedDeployment (deployment : Deployment) : M unit :=
  let monitors := GetMatchingMonitors (d_Annotations deployment) "deployment" in
  templateAll deployment monitors.

Definition OnDeletedDeployment (deployment : Deployment) : M unit :=
  log Info "I finally made it to my deletion handler." [];;
  let monitors := GetMatchingMonitors (d_Annotations deployment) "deployment" in
  templateAll deployment monitors.

End WithEngine.

End Handler.

(** ** A fragment of text/template

    Literal text and field actions [{{.Ident}}] written without blanks, over
    the string fields of [Deployment].  It serves the concrete examples
    below, whose templates all lie in this fragment; the general statements
    quantify over every [TemplateEngine]. *)
Module TextTemplate.

Inductive Node :=
| TextNode (text : string)
| FieldNode (ident : string).

Definition flush (text : string) (nodes : list Node) : list Node :=
  if decide (text = EmptyString) then nodes else nodes ++ [TextNode text].

Definition action (body : string) : option Node :=
  match body with
  | String "."%char ident => if decide (ident = EmptyString) then None else Some (FieldNode ident)
  | _ => None
  end.

(** The lexer and parser in one pass; [None] is a parse error (an action
    that is not closed, or not a field). *)
Fixpoint scan (inAction : bool) (s : string) (cur : string) (nodes : list Node)
    : option (list Node) :=
  match s with
  | EmptyString => if inAction then None else Some (flush cur nodes)
  | String c s' =>
      if inAction then
        match c, s' with
        | "}"%char, String "}"%char rest =>
            match action cur with
            | Some n => scan false rest EmptyString (nodes ++ [n])
            | None => None
            end
        | _, _ => scan true s' (cur +:+ String c EmptyString) nodes
        end
      else
        match c, s' with
        | "{"%char, String "{"%char rest => scan true rest EmptyString (flush cur nodes)
        | _, _ => scan false s' (cur +:+ String c EmptyString) nodes
        end
  end.

Definition parse (text : string) : option (list Node) * option error :=
  match scan false text EmptyString [] with
  | Some nodes => (Some nodes, None)
  | None => (None, Some "template: parse error")
  end.

Definition field (deployment : Deployment) (ident : string) : option string :=
  if decide (ident = "Name") then Some (d_Name deployment)
  else if decide (ident = "Namespace") then Some (d_Namespace deployment)
  else None.

(** Execution writes node by node and stops at the first field it cannot
    evaluate; what was written before stays written. *)
Fixpoint run (nodes : list Node) (deployment : Deployment) (out : string)
    : string * option error :=
  match nodes with
  | [] => (out, None)
  | TextNode text :: rest => run rest deployment (out +:+ text)
  | FieldNode ident :: rest =>
      match field deployment ident with
      | Some v => run rest deployment (out +:+ v)
      | None => (out, Some ("can't evaluate field " +:+ ident))
      end
  end.

Definition engine : TemplateEngine :=
  {| Template := list Node;
     Parse := parse;
     Execute := fun t deployment => run t deployment EmptyString |}.

End TextTemplate.

(** ** Properties stated by the specification, as predicates *)

Module Spec.

(** A required annotation is present on the object with exactly that value. *)
Definition present (annotations : gmap string string) (a : Annotation) : Prop :=
  annotations !! a_Name a = Some (a_Value a).

(** The matching condition in the specification's words: the type is the
    given one and every required annotation is present. *)
Definition matchesAll (rule : MonitorSet) (annotations : gmap string string)
    (objectType : string) : Prop :=
  ObjectType rule = objectType ∧ Forall (present annotations) (Annotations rule).

(** The condition the matcher implements: as above, for a rule that
    requires at least one annotation. *)
Definition selects (annotations : gmap string string) (objectType : string)
    (rule : MonitorSet) : Prop :=
  ObjectType rule = objectType ∧ Annotations rule ≠ [] ∧
  Forall (present annotations) (Annotations rule).

#[global] Instance present_dec annotations a : Decision (present annotations a).
Proof. unfold present. apply _. Defined.

#[global] Instance selects_dec annotations objectType rule :
  Decision (selects annotations objectType rule).
Proof. unfold selects. apply _. Defined.

(** A ruleset without the rules that require no annotation. *)
Definition withoutEmptyRequirements (rules : ruleset) : ruleset :=
  {| ClusterVariables := ClusterVariables rules;
     MonitorSets := filter (fun rule => Annotations rule ≠ []) (MonitorSets rules) |}.

(** In the provisioned list, [dd] is the first monitor named [name]. *)
Definition provisionedAs (monitors : list datadog.Monitor) (name : string)
    (dd : datadog.Monitor) : Prop :=
  ∃ before after,
    monitors = before ++ dd :: after ∧
    datadog.Name dd = Some name ∧
    Forall (fun p => ∃ n, datadog.Name p = Some n ∧ n ≠ name) before.

(** The provisioned monitor is what the sync step sends for [monitor], with
    the backend's id. *)
Definition converged (monitor : conf.Monitor) (dd : datadog.Monitor) : Prop :=
  ∃ id, dd = datadog.set_Id (Sync.toDdMonitor monitor) id.

(** The same, with the tag list compared as a multiset: the order of the
    tags is insignificant, their values are not. *)
Definition convergedUpToTagOrder (monitor : conf.Monitor) (dd : datadog.Monitor) : Prop :=
  ∃ id tags,
    elems tags ≡ₚ elems (conf.Tags monitor) ∧
    dd = datadog.set_Id (datadog.set_Tags (Sync.toDdMonitor monitor) tags) id.

(** A create or update call. *)
Definition isWrite (c : BackendCall) : bool :=
  match c with
  | CreateMonitor _ | UpdateMonitor _ => true
  | GetMonitorsByTags _ | DeleteMonitorById _ => false
  end.

Definition isDelete (c : BackendCall) : bool :=
  match c with
  | DeleteMonitorById _ => true
  | _ => false
  end.

End Spec.

(** ** Concrete inputs *)

Module Examples.

Definition config0 : Config :=
  {| DatadogAPIKey := "api"; DatadogAppKey := "app"; ClusterName := "c1";
     OwnerTag := "dd-manager";
     MonitorDefinitionsPath := ["a.yml"; "https://conf/b.yml"];
     Rulesets := None; DryRun := false |}.

Definition ddMonitor (name : string) (tags : slice string) : datadog.Monitor :=
  {| datadog.Id := None; datadog.Type_ := Some "metric alert";
     datadog.Query := Some "avg(last_5m):avg:cpu{*} > 1";
     datadog.Name := Some name; datadog.Message := Some "cpu is high";
     datadog.Tags := tags; datadog.Opts := None |}.

(** Matcher inputs. *)

Definition ruleAB : MonitorSet :=
  {| ObjectType := "deployment";
     Annotations := [ {| a_Name := "a"; a_Value := "1" |};
                      {| a_Name := "b"; a_Value := "2" |} ];
     BoundObjects := [];
     Monitors := [ddMonitor "ab" None] |}.

Definition ruleNoRequirement : MonitorSet :=
  {| ObjectType := "deployment"; Annotations := []; BoundObjects := [];
     Monitors := [ddMonitor "all" None] |}.

Definition ruleA : MonitorSet :=
  {| ObjectType := "deployment";
     Annotations := [ {| a_Name := "a"; a_Value := "1" |} ];
     BoundObjects := [];
     Monitors := [ddMonitor "a" None] |}.

Definition rules1 : ruleset :=
  {| ClusterVariables := None; MonitorSets := [ruleAB; ruleNoRequirement; ruleA] |}.

Definition annA : gmap string string := {[ "a" := "1" ]}.
Definition annABC : gmap string string := {[ "a" := "1"; "b" := "2"; "c" := "3" ]}.

(** Binding inputs: the namespace "prod" carries [team=core]; the binding
    rule requires it and binds deployments. *)

Definition bindingRule : MonitorSet :=
  {| ObjectType := "binding";
     Annotations := [ {| a_Name := "team"; a_Value := "core" |} ];
     BoundObjects := ["deployment"];
     Monitors := [ddMonitor "ns-cpu" (Some ["env:prod"])] |}.

Definition bindingRules : ruleset :=
  {| ClusterVariables := None; MonitorSets := [bindingRule] |}.

Definition kube1 : KubeClient :=
  {| GetNamespace := fun namespace =>
       if decide (namespace = "prod") then ({[ "team" := "core" ]}, None)
       else (∅, Some "namespaces not found") |}.

(** Reload inputs.  Both documents parse; in [worldBoth] both sources can
    be read, in [worldOnlyB] the file a.yml is gone. *)

Definition docA : ruleset := {| ClusterVariables := None; MonitorSets := [ruleA] |}.
Definition docB : ruleset := {| ClusterVariables := None; MonitorSets := [ruleAB] |}.
Definition docVars : ruleset :=
  {| ClusterVariables := Some {[ "env" := "prod" ]}; MonitorSets := [ruleA] |}.

Definition parseDoc (yml : string) : ruleset * option error :=
  if decide (yml = "A") then (docA, None)
  else if decide (yml = "B") then (docB, None)
  else if decide (yml = "V") then (docVars, None)
  else ({| ClusterVariables := None; MonitorSets := [] |}, Some "yaml: unmarshal errors").

Definition worldBoth : Sources :=
  {| loadFromPath := fun path =>
       if decide (path = "a.yml") then ("A", None)
       else if decide (path = "https://conf/b.yml") then ("B", None)
       else (EmptyString, Some "not a valid path or URL");
     Unmarshal := parseDoc |}.

Definition worldOnlyB : Sources :=
  {| loadFromPath := fun path =>
       if decide (path = "https://conf/b.yml") then ("B", None)
       else (EmptyString, Some "not a valid path or URL");
     Unmarshal := parseDoc |}.

Definition worldVars : Sources :=
  {| loadFromPath := fun path =>
       if decide (path = "a.yml") then ("V", None)
       else (EmptyString, Some "not a valid path or URL");
     Unmarshal := parseDoc |}.

Definition worldNone : Sources :=
  {| loadFromPath := fun path => (EmptyString, Some "not a valid path or URL");
     Unmarshal := parseDoc |}.

Definition published (rules : list MonitorSet) : Config :=
  set_Rulesets config0 (Some {| ClusterVariables := None; MonitorSets := rules |}).

(** Sync inputs. *)

Definition noThresholds : conf.Thresholds :=
  {| conf.Ok := None; conf.Critical := Some "90"; conf.Warning := Some "80";
     conf.Unknown := None; conf.CriticalRecovery := None;
     conf.WarningRecovery := None |}.

Definition cpu (tags : slice string) (locked : bool) : conf.Monitor :=
  {| conf.Name := "cpu"; conf.Type_ := "metric alert";
     conf.Query := "avg(last_5m):avg:cpu{*} > 90"; conf.Message := "cpu is high";
     conf.Tags := tags; conf.NoDataTimeframe := 10;
     conf.NotifyAudit := false; conf.NotifyNoData := true;
     conf.RenotifyInterval := 60; conf.NewHostDelay := 300;
     conf.EvaluationDelay := 0; conf.Timeout := 0;
     conf.EscalationMessage := "still high"; conf.Thresholds_ := noThresholds;
     conf.RequireFullWindow := true; conf.Locked := locked |}.

Definition desired : conf.Monitor := cpu (Some ["team:core"; "env:prod"]) false.

(** The backend's copy of [desired], under id 7, with the tags as given. *)
Definition provisioned (tags : slice string) : datadog.Monitor :=
  datadog.set_Id (datadog.set_Tags (Sync.toDdMonitor desired) tags) (Some 7).

Definition clientWith (monitors : list datadog.Monitor) : DatadogClient :=
  {| onGetMonitorsByTags := fun _ => (monitors, None);
     onCreateMonitor := fun m => (Some (datadog.set_Id m (Some 8)), None);
     onUpdateMonitor := fun _ => None;
     onDeleteMonitor := fun _ => None |}.

(** A backend whose listing call fails; the other calls succeed. *)
Definition clientUnreachable : DatadogClient :=
  {| onGetMonitorsByTags := fun _ => ([], Some "connection refused");
     onCreateMonitor := fun m => (Some (datadog.set_Id m (Some 8)), None);
     onUpdateMonitor := fun _ => None;
     onDeleteMonitor := fun _ => None |}.

(** Handler inputs. *)

Definition api : Deployment :=
  {| d_Name := "api"; d_Namespace := "prod"; d_Annotations := annA |}.

Definition template (name query : string) : conf.Monitor :=
  conf.set_Query (conf.set_Name (cpu None false) name) query.

Definition goodTemplate : conf.Monitor :=
  template "cpu {{.Namespace}}/{{.Name}}" "avg:cpu.{{.Name}} > 90".

(** The query names a field the object does not have. *)
Definition badQuery : conf.Monitor :=
  template "cpu {{.Namespace}}/{{.Name}}" "avg:cpu.{{.Nope}} > 90".

Definition matching (annotations : gmap string string) (objectType : string)
    : list conf.Monitor :=
  if decide (objectType = "deployment") then [goodTemplate] else [].

End Examples.

(** ** Environment (pkg/config/config.go) *)

(** The process environment as [os.LookupEnv] reads it: a variable that is
    set to the empty string is present. *)
Module Env.

(** [strings.Split(s, sep)] for a non-empty [sep]: [s] is cut at the
    leftmost occurrences of [sep] that do not overlap.  [skip] counts the
    characters of a separator just matched that are still to be passed over,
    [cur] is the piece being collected. *)
Fixpoint splitFrom (sep s : string) (skip : nat) (cur : string) : list string :=
  match s with
  | EmptyString => [cur]
  | String c rest =>
      match skip with
      | S k => splitFrom sep rest k cur
      | O =>
          if String.prefix sep s
          then cur :: splitFrom sep rest (String.length sep - 1) EmptyString
          else splitFrom sep rest 0 (cur +:+ String c EmptyString)
      end
  end.

(** With an empty separator Go cuts after each UTF-8 sequence; here after
    each byte, which is the same for ASCII text.  The program only splits at
    [";"]. *)
Fixpoint explode (s : string) : list string :=
  match s with
  | EmptyString => []
  | String c rest => String c EmptyString :: explode rest
  end.

Definition Split (s sep : string) : list string :=
  if decide (sep = EmptyString) then explode s else splitFrom sep s 0 EmptyString.

(** [strconv.FormatBool] and [strconv.ParseBool]; the error is kept as the
    message of [strconv.ErrSyntax]. *)
Definition FormatBool (b : bool) : string := if b then "true" else "false".

Definition ParseBool (str : string) : bool * option error :=
  if decide (str ∈ ["1"; "t"; "T"; "TRUE"; "true"; "True"]) then (true, None)
  else if decide (str ∈ ["0"; "f"; "F"; "FALSE"; "false"; "False"]) then (false, None)
  else (false, Some "invalid syntax").

Section WithEnvironment.
Variable env : gmap string string.

(** [log.Info(fmt.Sprintf(format, args...))] is recorded as the line
    [format] with [args]. *)
Definition getEnv (key : string) (defaultVal : string) : M string :=
  log Info "Getting environment variable %s" [AStr key];;
  match env !! key with
  | Some value => mret value
  | None =>
      log Info "Using default value %s for %s" [AStr defaultVal; AStr key];;
      mret defaultVal
  end.

Definition envAsMap (key : string) (defaultVal : list string) (delimiter : string)
    : list string :=
  match env !! key with
  | Some value => Split value delimiter
  | None => defaultVal
  end.

(** The verb [%t] prints a boolean as [FormatBool] does. *)
Definition envAsBool (key : string) (defaultVal : bool) : M bool :=
  val ← getEnv key (FormatBool defaultVal);
  match ParseBool val with
  | (val, None) => mret val
  | (_, Some _) =>
      log Info "Using default value %t for %s" [AStr (FormatBool defaultVal); AStr key];;
      mret defaultVal
  end.

End WithEnvironment.

End Env.

(** ** Reading a ruleset source (pkg/config/config.go) *)

(** What the operating system and the network answer.  [http.Get] returns a
    response or an error, never both; a response is its status code and what
    [ioutil.ReadAll] reads from its body.  Of [os.Stat] only the error is
    used. *)
Record Response := {
  StatusCode : Z;
  Body : string * option error
}.

Record OS := {
  httpGet : string → Response + error;
  osStat : string → option error;
  ReadFile : string → string * option error
}.

Module Loader.

Definition isURL (path : string) : bool :=
  String.prefix "http://" path || String.prefix "https://" path.

(** [loadFromPath]: a nil byte slice is the empty text. *)
Definition loadFromPath (os : OS) (path : string) : string * option error :=
  if isURL path then
    match httpGet os path with
    | inr err => (EmptyString, Some err)
    | inl response => Body response
    end
  else
    match osStat os path with
    | None => ReadFile os path
    | Some _ => (EmptyString, Some "not a valid path or URL")
    end.

(** The collaborators of a reload, with [loadFromPath] as the program has
    it. *)
Definition sources (os : OS) (unmarshal : string → ruleset * option error) : Sources :=
  Build_Sources (loadFromPath os) unmarshal.

End Loader.

(** ** The configuration singleton (pkg/config/config.go) *)

Definition set_DryRun (config : Config) (dryRun : bool) : Config :=
  {| DatadogAPIKey := DatadogAPIKey config; DatadogAppKey := DatadogAppKey config;
     ClusterName := ClusterName config; OwnerTag := OwnerTag config;
     MonitorDefinitionsPath := MonitorDefinitionsPath config;
     Rulesets := Rulesets config; DryRun := dryRun |}.

Module Singleton.

(** The events of the initialisation: those of the computations it runs,
    and its own warning line. *)
Inductive InitEvent :=
| Logged (e : Event)
| Warned (format : string).

(** The composite literal [&Config{...}]: the fields are evaluated in the
    order written; [Rulesets] is not set. *)
Definition newConfig (env : gmap string string) : M Config :=
  apiKey ← Env.getEnv env "DD_API_KEY" EmptyString;
  appKey ← Env.getEnv env "DD_APP_KEY" EmptyString;
  clusterName ← Env.getEnv env "CLUSTER_NAME" EmptyString;
  ownerTag ← Env.getEnv env "OWNER" "dd-manager";
  let paths := Env.envAsMap env "DEFINITIONS_PATH" ["conf.yml"] ";" in
  dryRun ← Env.envAsBool env "DRY_RUN" false;
  mret {| DatadogAPIKey := apiKey; DatadogAppKey := appKey;
          ClusterName := clusterName; OwnerTag := ownerTag;
          MonitorDefinitionsPath := paths; Rulesets := None; DryRun := dryRun |}.

(** The function [GetInstance] hands to [once.Do], up to the start of the
    ticker: the instance it leaves behind.  The goroutine that calls
    [reloadRulesets] again every minute is not part of this model. *)
Definition initialise (env : gmap string string) (src : Sources)
    : list InitEvent * outcome Config :=
  let loaded := (instance ← newConfig env; Store.reloadRulesets src instance) in
  match result loaded with
  | Panic msg => (Logged <$> trace loaded, Panic msg)
  | Ret instance =>
      if decide (DatadogAPIKey instance = EmptyString ∨ DatadogAppKey instance = EmptyString)
      then (( Logged <$> trace loaded)
              ++ [Warned "Datadog keys are not set, setting mode to dry run."],
            Ret (set_DryRun instance true))
      else (Logged <$> trace loaded, Ret instance)
  end.

End Singleton.

(** ** More properties, as predicates *)

Module Facts.

(** Every pointer [toMonitor] follows is set. *)
Definition complete (dd : datadog.Monitor) : Prop :=
  is_Some (datadog.Name dd) ∧ is_Some (datadog.Type_ dd) ∧
  is_Some (datadog.Query dd) ∧ is_Some (datadog.Message dd) ∧
  ∃ options thresholds,
    datadog.Opts dd = Some options ∧
    datadog.Thresholds options = Some thresholds ∧
    is_Some (datadog.NotifyAudit options) ∧
    is_Some (datadog.NotifyNoData options) ∧
    is_Some (datadog.RenotifyInterval options) ∧
    is_Some (datadog.NewHostDelay options) ∧
    is_Some (datadog.EvaluationDelay options) ∧
    is_Some (datadog.TimeoutH options) ∧
    is_Some (datadog.EscalationMessage options) ∧
    is_Some (datadog.RequireFullWindow options).

(** No provisioned monitor carries the name, and each has a name. *)
Definition absent (monitors : list datadog.Monitor) (name : string) : Prop :=
  Forall (fun p => ∃ n, datadog.Name p = Some n ∧ n ≠ name) monitors.

(** The four text fields of a monitor parse. *)
Definition parses (engine : TemplateEngine) (monitor : conf.Monitor) : Prop :=
  is_Some (Parse engine (conf.Name monitor)).1 ∧
  is_Some (Parse engine (conf.Query monitor)).1 ∧
  is_Some (Parse engine (conf.Message monitor)).1 ∧
  is_Some (Parse engine (conf.EscalationMessage monitor)).1.

#[global] Instance parses_dec engine monitor : Decision (parses engine monitor).
Proof. unfold parses. apply _. Defined.

(** The monitor a write call carries. *)
Definition written (c : BackendCall) : option datadog.Monitor :=
  match c with
  | CreateMonitor m | UpdateMonitor m => Some m
  | GetMonitorsByTags _ | DeleteMonitorById _ => None
  end.

(** The error line a reload logs for a source, if it logs one. *)
Definition failureLine (src : Sources) (cfg : string) : option string :=
  match loadFromPath src cfg with
  | (_, Some _) => Some "Could not load config file %s: %v"
  | (yml, None) =>
      match Unmarshal src yml with
      | (_, Some _) => Some "Error unmarshalling config file %s: %v"
      | (_, None) => None
      end
  end.

(** What one source contributes to the monitors of an object. *)
Definition sourceMonitors (src : Sources) (annotations : gmap string string)
    (objectType : string) (cfg : string) : list datadog.Monitor :=
  match Store.loaded src cfg with
  | Some rSet => Matcher.GetMatchingMonitors rSet annotations objectType
  | None => []
  end.

(** A rule binds the object type. *)
Definition binds (objectType : string) (rule : MonitorSet) : Prop :=
  objectType ∈ BoundObjects rule.

#[global] Instance binds_dec objectType rule : Decision (binds objectType rule).
Proof. unfold binds. apply _. Defined.

End Facts.

(** ** More concrete inputs *)

Module Inputs.

Definition envKeys : gmap string string :=
  {[ "DD_API_KEY" := "k1"; "DD_APP_KEY" := "k2";
     "DEFINITIONS_PATH" := "a.yml;https://conf/b.yml" ]}.

(** Nothing can be read: no file exists and the network is down. *)
Definition offline : OS :=
  {| httpGet := fun _ => inr "dial tcp: connection refused";
     osStat := fun _ => Some "no such file or directory";
     ReadFile := fun _ => (EmptyString, Some "no such file or directory") |}.

(** The file a.yml exists and holds the document "A"; every URL answers
    404 with the body "B". *)
Definition online : OS :=
  {| httpGet := fun _ => inl {| StatusCode := 404; Body := ("B", None) |};
     osStat := fun path =>
       if decide (path = "a.yml") then None else Some "no such file or directory";
     ReadFile := fun path =>
       if decide (path = "a.yml") then ("A", None)
       else (EmptyString, Some "no such file or directory") |}.

(** A configuration whose ruleset holds a deployment rule and two binding
    rules; the second binding rule also requires [tier=gold]. *)
Definition goldRule : MonitorSet :=
  {| ObjectType := "binding";
     Annotations := [ {| a_Name := "team"; a_Value := "core" |};
                      {| a_Name := "tier"; a_Value := "gold" |} ];
     BoundObjects := ["deployment"];
     Monitors := [Examples.ddMonitor "gold-cpu" None] |}.

Definition boundRules : ruleset :=
  {| ClusterVariables := None;
     MonitorSets := [Examples.ruleA; Examples.bindingRule; goldRule] |}.

Definition boundConfig : Config := set_Rulesets Examples.config0 (Some boundRules).

(** Every URL answers with the document "B"; no file exists. *)
Definition online_but_a : OS :=
  {| httpGet := fun _ => inl {| StatusCode := 200; Body := ("B", None) |};
     osStat := fun _ => Some "no such file or directory";
     ReadFile := fun _ => (EmptyString, Some "no such file or directory") |}.

(** A complete backend monitor named "cpu" that differs from
    [Examples.desired] in its query. *)
Definition stale : datadog.Monitor :=
  datadog.set_Id
    (Sync.toDdMonitor (conf.set_Query Examples.desired "avg(last_5m):avg:cpu{*} > 50"))
    (Some 7).

Definition other : datadog.Monitor :=
  datadog.set_Id (Sync.toDdMonitor (conf.set_Name Examples.desired "mem")) (Some 3).

End Inputs.

(** ** The matcher and the binding path on the configuration

    [Matcher] and [Binding] give the values these functions return for the
    ruleset [config.Rulesets] points to.  Here they are as methods of
    [*Config]: the pointer [config.Rulesets] is dereferenced, and the info
    line of the matcher's inner loop is recorded.  The verb [%d] prints the
    rule's index in decimal. *)
Module OnConfig.

Definition mismatch (annotation : Annotation) (monitorSetIdx : nat) : M unit :=
  log Info "Annotation %s with value %s does not exist, so monitor %d does not match"
    [AStr (a_Name annotation); AStr (a_Value annotation); AStr (pretty monitorSetIdx)].

(** The inner loop: the flag when the loop is left; the [else] branch logs
    and breaks. *)
Fixpoint annotationLoop (annotations : gmap string string) (monitorSetIdx : nat)
    (required : list Annotation) (hasAllAnnotations : bool) : M bool :=
  match required with
  | [] => mret hasAllAnnotations
  | annotation :: rest =>
      match annotations !! a_Name annotation with
      | Some val =>
          if decide (val = a_Value annotation)
          then annotationLoop annotations monitorSetIdx rest true
          else mismatch annotation monitorSetIdx;; mret false
      | None => mismatch annotation monitorSetIdx;; mret false
      end
  end.

(** The outer loop from index [monitorSetIdx] on: [validMSets] when it is
    left. *)
Fixpoint ruleLoop (annotations : gmap string string) (objectType : string)
    (monitorSets : list MonitorSet) (monitorSetIdx : nat)
    (validMSets : list MonitorSet) : M (list MonitorSet) :=
  match monitorSets with
  | [] => mret validMSets
  | monitorSet :: rest =>
      validMSets ←
        (if decide (ObjectType monitorSet = objectType) then
           hasAllAnnotations ←
             annotationLoop annotations monitorSetIdx (Annotations monitorSet) false;
           mret (if hasAllAnnotations : bool
                 then validMSets ++ [monitorSet] else validMSets)
         else mret validMSets);
      ruleLoop annotations objectType rest (S monitorSetIdx) validMSets
  end.

Definition getMatchingRulesets (config : Config)
    (annotations : gmap string string) (objectType : string) : M (list MonitorSet) :=
  rules ← deref (Rulesets config);
  ruleLoop annotations objectType (MonitorSets rules) 0 [].

Definition GetMatchingMonitors (config : Config)
    (annotations : gmap string string) (objectType : string) : M (list datadog.Monitor) :=
  mSets ← getMatchingRulesets config annotations objectType;
  mret (fold_left (fun validMonitors mSet => validMonitors ++ Monitors mSet) mSets []).

(** The rulesets are matched only when the namespace was read. *)
Definition GetBoundMonitors (kube : KubeClient) (config : Config)
    (namespace : string) (objectType : string) : M (list datadog.Monitor) :=
  let '(ns_Annotations, err) := GetNamespace kube namespace in
  match err with
  | Some e =>
      log Error "Error getting namespace %s: %+v" [AStr namespace; AStr e];;
      mret []
  | None =>
      mSets ← getMatchingRulesets config ns_Annotations "binding";
      mret (fold_left (Binding.boundStep objectType) mSets [])
  end.

End OnConfig.

(** ** Expected traces *)

Module Traces.

(** The first required annotation the object does not carry with that
    value. *)
Fixpoint firstUnmet (annotations : gmap string string) (required : list Annotation)
    : option Annotation :=
  match required with
  | [] => None
  | a :: rest =>
      if decide (Spec.present annotations a) then firstUnmet annotations rest
      else Some a
  end.

(** One info line for each rule of the given type, counted from index
    [from], that has an unmet required annotation: the line names the first
    such annotation and the rule's index. *)
Fixpoint mismatchLines (annotations : gmap string string) (objectType : string)
    (monitorSets : list MonitorSet) (from : nat) : list Event :=
  match monitorSets with
  | [] => []
  | rule :: rest =>
      (if decide (ObjectType rule = objectType) then
         match firstUnmet annotations (Annotations rule) with
         | Some a =>
             [ELog Info
                "Annotation %s with value %s does not exist, so monitor %d does not match"
                [AStr (a_Name a); AStr (a_Value a); AStr (pretty from)]]
         | None => []
         end
       else [])
      ++ mismatchLines annotations objectType rest (S from)
  end.

(** What the handlers' loop leaves in the trace: for each monitor in turn,
    the line announcing it and the events of rendering it, up to and
    including the first monitor whose rendering does not return. *)
Fixpoint rendered (engine : TemplateEngine) (deployment : Deployment)
    (monitors : list conf.Monitor) : list Event :=
  match monitors with
  | [] => []
  | monitor :: rest =>
      ELog Info "looping monitor %s" [AStr (conf.Name monitor)]
      :: trace (Handler.applyDeploymentTemplate engine deployment monitor)
      ++ match result (Handler.applyDeploymentTemplate engine deployment monitor) with
         | Ret _ => rendered engine deployment rest
         | Panic _ => []
         end
  end.

End Traces.

(** * Theorems *)

(** ** The effect monad *)

Section MonadLaws.
Context {A B : Type}.

Lemma result_bind (m : M A) (f : A → M B) a :
  result m = Ret a → result (m ≫= f) = result (f a).
Proof. intros H. unfold mbind, M_bind, bind. by rewrite H. Qed.

Lemma trace_bind (m : M A) (f : A → M B) a :
  result m = Ret a → trace (m ≫= f) = trace m ++ trace (f a).
Proof. intros H. unfold mbind, M_bind, bind. by rewrite H. Qed.

Lemma result_bind_panic (m : M A) (f : A → M B) msg :
  result m = Panic msg → result (m ≫= f) = Panic msg.
Proof. intros H. unfold mbind, M_bind, bind. by rewrite H. Qed.

Lemma bind_ret_l (a : A) (f : A → M B) : mret a ≫= f = f a.
Proof. unfold mbind, M_bind, bind, mret, M_ret, ret. simpl. by destruct (f a). Qed.

Lemma bind_value (t : list Event) (a : A) (f : A → M B) :
  MkM t (Ret a) ≫= f = MkM (t ++ trace (f a)) (result (f a)).
Proof. reflexivity. Qed.

Lemma deref_Some (a : A) : deref (Some a) = mret a.
Proof. reflexivity. Qed.

Lemma emit_then_ret (e : Event) (a : A) :
  (emit e ≫= λ _, mret a) = MkM [e] (Ret a).
Proof. reflexivity. Qed.

Lemma bind_emit (e : Event) (k : M B) :
  (emit e ≫= λ _, k) = MkM (e :: trace k) (result k).
Proof. reflexivity. Qed.

End MonadLaws.

Lemma calls_app (t1 t2 : list Event) : calls (t1 ++ t2) = calls t1 ++ calls t2.
Proof. unfold calls. apply omap_app. Qed.

Lemma silent_ret {A} (a : A) : silent (mret a : M A).
Proof. reflexivity. Qed.

Lemma silent_log lvl format args : silent (log lvl format args).
Proof. reflexivity. Qed.

Lemma silent_deref {A} (p : option A) : silent (deref p).
Proof. by destruct p. Qed.

Lemma silent_bind {A B} (m : M A) (f : A → M B) :
  silent m → (∀ a, silent (f a)) → silent (m ≫= f).
Proof.
  unfold silent, mbind, M_bind, bind. intros Hm Hf.
  destruct (result m) as [a|msg]; simpl; [|done].
  by rewrite calls_app, Hm, (Hf a).
Qed.

Lemma silent_forRange {A S} (xs : list A) (body : S → A → M S) (s : S) :
  (∀ s x, silent (body s x)) → silent (forRange xs body s).
Proof.
  intros Hbody. revert s.
  induction xs as [|x rest IH]; intros s; simpl.
  - apply silent_ret.
  - apply silent_bind; auto.
Qed.

(** ** Matcher *)

Section MatcherFacts.
Import Matcher Spec.

Lemma rangeByValue_id {A} (xs : list A) (body : A → A) : rangeByValue xs body = xs.
Proof.
  unfold rangeByValue. generalize xs at 2 3 as kept.
  induction xs as [|x rest IH]; intros kept; simpl; [done | apply IH].
Qed.

(** The flag when the inner loop is left: unchanged for a rule that requires
    nothing, otherwise whether every required annotation was found. *)
Lemma annotationLoop_spec annotations required flag :
  annotationLoop annotations required flag =
  match required with
  | [] => flag
  | _ :: _ => bool_decide (Forall (present annotations) required)
  end.
Proof.
  revert flag. induction required as [|a rest IH]; intros flag; [done|].
  simpl. unfold present at 1.
  destruct (annotations !! a_Name a) as [val|] eqn:Hlook.
  - destruct (decide (val = a_Value a)) as [->|Hne].
    + rewrite IH. destruct rest as [|b rest'].
      * symmetry. apply bool_decide_eq_true. repeat constructor. done.
      * apply bool_decide_ext. split.
        -- intros Hall. constructor; [done | exact Hall].
        -- by inversion 1.
    + symmetry. apply bool_decide_eq_false. inversion 1 as [|?? Hp]; subst.
      unfold present in Hp. congruence.
  - symmetry. apply bool_decide_eq_false. inversion 1 as [|?? Hp]; subst.
    unfold present in Hp. congruence.
Qed.

Lemma ruleStep_spec annotations objectType validMSets rule :
  ruleStep annotations objectType validMSets rule =
  validMSets ++ filter (selects annotations objectType) [rule].
Proof.
  unfold ruleStep. rewrite annotationLoop_spec.
  destruct (decide (ObjectType rule = objectType)) as [Hty|Hty].
  - destruct (Annotations rule) as [|a rest] eqn:Hreq.
    + rewrite filter_cons_False, filter_nil, app_nil_r; [done|].
      unfold selects. rewrite Hreq. by intros (_ & Hne & _).
    + case_bool_decide as Hall.
      * rewrite filter_cons_True; [done|]. unfold selects. by rewrite Hreq.
      * rewrite filter_cons_False, filter_nil, app_nil_r; [done|].
        unfold selects. rewrite Hreq. by intros (_ & _ & Hall').
  - rewrite filter_cons_False, filter_nil, app_nil_r; [done|].
    unfold selects. by intros (Hty' & _).
Qed.

Lemma matchLoop_spec annotations objectType rules validMSets :
  fold_left (ruleStep annotations objectType) rules validMSets =
  validMSets ++ filter (selects annotations objectType) rules.
Proof.
  revert validMSets. induction rules as [|rule rest IH]; intros validMSets; simpl.
  - by rewrite filter_nil, app_nil_r.
  - rewrite IH, ruleStep_spec, <- app_assoc, <- filter_app. done.
Qed.

Lemma getMatchingRulesets_spec rules annotations objectType :
  getMatchingRulesets rules annotations objectType =
  filter (selects annotations objectType) (MonitorSets rules).
Proof. unfold getMatchingRulesets. by rewrite matchLoop_spec. Qed.

Lemma present_weaken (annotations annotations' : gmap string string) a :
  annotations ⊆ annotations' → present annotations a → present annotations' a.
Proof. unfold present. intros Hsub Hp. by eapply lookup_weaken. Qed.

Lemma selects_weaken (annotations annotations' : gmap string string) objectType rule :
  annotations ⊆ annotations' →
  selects annotations objectType rule → selects annotations' objectType rule.
Proof.
  intros Hsub (Hty & Hne & Hall). repeat split; [done..|].
  eapply Forall_impl; [exact Hall|]. intros a. by apply present_weaken.
Qed.

End MatcherFacts.

Section MatcherClaims.
Import Matcher Spec Examples.

(** C6, as stated, fails: the rule [ruleNoRequirement] has the object's type
    and requires no annotation, so each of its required annotations is
    present on the object; it is declared in the ruleset, and the matcher
    does not select it. *)
Lemma matcher_skips_rule_without_requirements :
  ruleNoRequirement ∈ MonitorSets rules1 ∧
  matchesAll ruleNoRequirement annABC "deployment" ∧
  getMatchingRulesets rules1 annABC "deployment" = [ruleAB; ruleA] ∧
  ruleNoRequirement ∉ getMatchingRulesets rules1 annABC "deployment".
Proof.
  split; [|split; [|split]].
  - unfold rules1; simpl. set_solver.
  - split; [reflexivity | constructor].
  - vm_compute. reflexivity.
  - rewrite getMatchingRulesets_spec, list_elem_of_filter.
    intros [(_ & Hne & _) _]. by apply Hne.
Qed.

(** C6 (amended): for every ruleset, object type and annotation map, the
    matcher returns, in declaration order, exactly the rules whose type is
    the given one, whose list of required annotations is not empty, and
    whose required annotations are all present on the object with an equal
    value; annotations of the object beyond the required ones do not
    unselect a rule. *)
Theorem getMatchingRulesets_selects
    (rules : ruleset) (annotations : gmap string string) (objectType : string) :
  getMatchingRulesets rules annotations objectType =
    filter (selects annotations objectType) (MonitorSets rules) ∧
  (∀ rule, rule ∈ getMatchingRulesets rules annotations objectType ↔
           rule ∈ MonitorSets rules ∧
           ObjectType rule = objectType ∧
           Annotations rule ≠ [] ∧
           ∀ a, a ∈ Annotations rule →
                annotations !! a_Name a = Some (a_Value a)) ∧
  (∀ annotations' rule,
     annotations ⊆ annotations' →
     rule ∈ getMatchingRulesets rules annotations objectType →
     rule ∈ getMatchingRulesets rules annotations' objectType).
Proof.
  split; [apply getMatchingRulesets_spec | split].
  - intros rule. rewrite getMatchingRulesets_spec, list_elem_of_filter.
    unfold selects. rewrite Forall_forall. unfold present. tauto.
  - intros annotations' rule Hsub.
    rewrite !getMatchingRulesets_spec, !list_elem_of_filter.
    intros [Hsel Hin]. split; [|done]. by eapply selects_weaken.
Qed.

Lemma getMatchingRulesets_selects_witness :
  annA ⊆ annABC ∧
  ruleA ∈ getMatchingRulesets rules1 annA "deployment" ∧
  ruleA ∈ getMatchingRulesets rules1 annABC "deployment".
Proof.
  assert (Hsub : annA ⊆ annABC).
  { apply map_subseteq_spec. intros k v. unfold annA, annABC.
    rewrite lookup_singleton_Some. intros [<- <-]. reflexivity. }
  assert (Hin : ruleA ∈ getMatchingRulesets rules1 annA "deployment").
  { replace (getMatchingRulesets rules1 annA "deployment") with [ruleA]
      by (vm_compute; reflexivity).
    apply list_elem_of_singleton. reflexivity. }
  split; [exact Hsub | split; [exact Hin|]].
  exact (proj2 (proj2 (getMatchingRulesets_selects rules1 annA "deployment"))
           annABC ruleA Hsub Hin).
Defined.

(** C10: for every ruleset, object type and annotation map, a rule whose
    list of required annotations is empty is not among the rules the matcher
    returns, and the monitors the matcher returns are those it returns for
    the ruleset without such rules. *)
Theorem rule_without_requirements_never_selected
    (rules : ruleset) (annotations : gmap string string) (objectType : string)
    (rule : MonitorSet) :
  Annotations rule = [] →
  (rule ∉ getMatchingRulesets rules annotations objectType) ∧
  GetMatchingMonitors rules annotations objectType =
    GetMatchingMonitors (withoutEmptyRequirements rules) annotations objectType.
Proof.
  intros Hempty. split.
  - rewrite getMatchingRulesets_spec, list_elem_of_filter.
    intros [(_ & Hne & _) _]. by apply Hne.
  - unfold GetMatchingMonitors. rewrite !getMatchingRulesets_spec. simpl.
    rewrite list_filter_filter_l; [done|]. by intros r (_ & Hne & _).
Qed.

Lemma rule_without_requirements_never_selected_witness :
  Annotations ruleNoRequirement = [] ∧
  (ruleNoRequirement ∉ getMatchingRulesets rules1 annABC "deployment") ∧
  GetMatchingMonitors rules1 annABC "deployment" =
    GetMatchingMonitors (withoutEmptyRequirements rules1) annABC "deployment".
Proof.
  split; [reflexivity|].
  apply (rule_without_requirements_never_selected rules1 annABC "deployment"
           ruleNoRequirement).
  reflexivity.
Defined.

End MatcherClaims.

(** ** Namespace binding *)

Section BindingClaims.
Import Matcher Binding Examples.

Lemma AppendTag_id mSet tag : AppendTag mSet tag = mSet.
Proof. unfold AppendTag. rewrite rangeByValue_id. by destruct mSet. Qed.

Lemma boundStep_spec objectType linkedMonitors mSet :
  boundStep objectType linkedMonitors mSet =
  if contains (BoundObjects mSet) objectType
  then linkedMonitors ++ Monitors mSet else linkedMonitors.
Proof. unfold boundStep. by rewrite rangeByValue_id, AppendTag_id. Qed.

(** The monitors handed out on the binding path are the rules' monitors as
    they stand in the ruleset. *)
Lemma GetBoundMonitors_members kube rules namespace objectType linked m :
  result (GetBoundMonitors kube rules namespace objectType) = Ret linked →
  m ∈ linked → ∃ rule, rule ∈ MonitorSets rules ∧ m ∈ Monitors rule.
Proof.
  unfold GetBoundMonitors.
  destruct (GetNamespace kube namespace) as [ann [e|]]; simpl.
  - intros [= <-]. by intros ?%elem_of_nil.
  - intros [= <-].
    assert (Hgen : ∀ l acc,
      m ∈ fold_left (boundStep objectType) l acc →
      m ∈ acc ∨ ∃ rule, rule ∈ l ∧ m ∈ Monitors rule).
    { induction l as [|r l IH]; intros acc; simpl; [by left|].
      intros [Hacc|(rule & Hin & Hm)]%IH.
      - rewrite boundStep_spec in Hacc.
        destruct (contains (BoundObjects r) objectType); [|by left].
        apply elem_of_app in Hacc as [?|?]; [by left|].
        right. exists r. split; [left|done].
      - right. exists rule. split; [by right|done]. }
    intros [Hnil|(rule & Hin & Hm)]%Hgen; [by apply elem_of_nil in Hnil|].
    exists rule. split; [|done].
    rewrite getMatchingRulesets_spec in Hin.
    by apply list_elem_of_filter in Hin as [_ ?].
Qed.

(** C3 fails on the code: the namespace "prod" satisfies the binding rule,
    which binds deployments; the one monitor returned for a deployment in
    that namespace is the rule's monitor with its tags as declared, without
    the inheritance marker. *)
Theorem bound_monitor_lacks_marker :
  result (GetBoundMonitors kube1 bindingRules "prod" "deployment") =
    Ret [ddMonitor "ns-cpu" (Some ["env:prod"])] ∧
  ¬ hasMarker (ddMonitor "ns-cpu" (Some ["env:prod"])).
Proof.
  split; [vm_compute; reflexivity|].
  unfold hasMarker, marker; simpl.
  intros [Heq|Hnil]%elem_of_cons; [discriminate Heq | by apply elem_of_nil in Hnil].
Qed.

End BindingClaims.

(** ** Ruleset store *)

Section StoreClaims.
Import Store Examples.

Lemma copyVariables_nothing dst (src : option (gmap string string)) :
  default ∅ src = ∅ → copyVariables dst src = mret dst.
Proof. unfold copyVariables. intros ->. by rewrite map_to_list_empty. Qed.

(** Writing the first variable of a source into the fresh collection
    panics: its map is nil. *)
Lemma copyVariables_panics (src : option (gmap string string)) :
  default ∅ src ≠ ∅ → result (copyVariables None src) = Panic nil_map_write.
Proof.
  unfold copyVariables. intros Hne.
  destruct (map_to_list (default ∅ src)) as [|[k v] rest] eqn:Hl.
  - by apply map_to_list_empty_iff in Hl.
  - reflexivity.
Qed.

Lemma reloadStep_no_variables src paths acc cfg :
  ClusterVariables acc = None →
  ¬ sourceDefinesVariables src cfg →
  result (reloadStep src paths acc cfg) =
  Ret {| ClusterVariables := None;
         MonitorSets := MonitorSets acc ++ default [] (MonitorSets <$> loaded src cfg) |}.
Proof.
  intros Hnil Hvars. unfold reloadStep, sourceDefinesVariables, loaded in *.
  destruct (loadFromPath src cfg) as [yml [e|]]; simpl.
  - rewrite app_nil_r. destruct acc; simpl in *; by subst.
  - destruct (Unmarshal src yml) as [rSet [e|]]; simpl.
    + rewrite app_nil_r. destruct acc; simpl in *; by subst.
    + rewrite copyVariables_nothing.
      * rewrite Hnil. reflexivity.
      * unfold definesVariables in Hvars.
        by destruct (decide (default ∅ (ClusterVariables rSet) = ∅)).
Qed.

Lemma reloadStep_variables src paths acc cfg :
  ClusterVariables acc = None →
  sourceDefinesVariables src cfg →
  result (reloadStep src paths acc cfg) = Panic nil_map_write.
Proof.
  intros Hnil Hvars. unfold reloadStep, sourceDefinesVariables, loaded in *.
  destruct (loadFromPath src cfg) as [yml [e|]]; simpl; [done|].
  destruct (Unmarshal src yml) as [rSet [e|]]; simpl; [done|].
  rewrite Hnil. apply copyVariables_panics in Hvars.
  unfold mbind, M_bind, bind. by rewrite Hvars.
Qed.

(** How the loop over the sources ends, from a collection whose variable
    map is still nil. *)
Lemma reloadLoop_result src allPaths paths acc :
  ClusterVariables acc = None →
  result (forRange paths (reloadStep src allPaths) acc) =
  if decide (Exists (sourceDefinesVariables src) paths)
  then Panic nil_map_write
  else Ret {| ClusterVariables := None;
              MonitorSets := MonitorSets acc ++ loadedRules src paths |}.
Proof.
  revert acc. induction paths as [|cfg rest IH]; intros acc Hnil.
  - destruct (decide (Exists (sourceDefinesVariables src) [])) as [He|He];
      [by apply Exists_nil in He|].
    unfold loadedRules; simpl. rewrite app_nil_r. destruct acc; simpl in *; by subst.
  - simpl (forRange _ _ _).
    destruct (decide (sourceDefinesVariables src cfg)) as [Hv|Hv].
    + destruct (decide (Exists (sourceDefinesVariables src) (cfg :: rest))) as [He|He];
        [|destruct He; by left].
      apply result_bind_panic. by apply reloadStep_variables.
    + erewrite result_bind by (by apply reloadStep_no_variables).
      rewrite IH by done.
      assert (Hrules : MonitorSets
                         {| ClusterVariables := None;
                            MonitorSets := MonitorSets acc
                              ++ default [] (MonitorSets <$> loaded src cfg) |}
                         ++ loadedRules src rest
                       = MonitorSets acc ++ loadedRules src (cfg :: rest)).
      { simpl. rewrite <- app_assoc. f_equal.
        unfold loadedRules; simpl. by destruct (loaded src cfg). }
      rewrite Hrules.
      destruct (decide (Exists (sourceDefinesVariables src) rest)) as [Hr|Hr];
        destruct (decide (Exists (sourceDefinesVariables src) (cfg :: rest))) as [He|He];
        try done.
      * destruct He. by right.
      * apply Exists_cons in He as [?|?]; done.
Qed.

Lemma reloadRulesets_result src config :
  result (reloadRulesets src config) =
  if decide (Exists (sourceDefinesVariables src) (MonitorDefinitionsPath config))
  then Panic nil_map_write
  else Ret (set_Rulesets config
              (Some {| ClusterVariables := None;
                       MonitorSets := loadedRules src (MonitorDefinitionsPath config) |})).
Proof.
  unfold reloadRulesets.
  pose proof (reloadLoop_result src (MonitorDefinitionsPath config)
                (MonitorDefinitionsPath config)
                {| ClusterVariables := None; MonitorSets := [] |} eq_refl) as Hloop.
  destruct (decide (Exists (sourceDefinesVariables src) (MonitorDefinitionsPath config))).
  - by apply result_bind_panic.
  - erewrite result_bind by exact Hloop. reflexivity.
Qed.

Lemma elem_of_loadedRules src paths rule :
  rule ∈ loadedRules src paths ↔
  ∃ cfg rSet, cfg ∈ paths ∧ loaded src cfg = Some rSet ∧ rule ∈ MonitorSets rSet.
Proof.
  unfold loadedRules. rewrite list_elem_of_join. split.
  - intros (l & Hrule & Hl). apply list_elem_of_omap in Hl as (cfg & Hcfg & Hsome).
    destruct (loaded src cfg) as [rSet|] eqn:Hload; simplify_eq/=.
    by exists cfg, rSet.
  - intros (cfg & rSet & Hcfg & Hload & Hrule).
    exists (MonitorSets rSet). split; [done|].
    apply list_elem_of_omap. exists cfg. split; [done|]. by rewrite Hload.
Qed.

(** C1, as stated, fails: after a reload that read both sources, a reload
    during which a.yml cannot be read publishes the rules of b.yml alone, so
    the rule a.yml had contributed is gone; and a reload during which no
    source can be read publishes the empty ruleset. *)
Lemma reload_forgets_unreachable_source :
  result (reloadRulesets worldBoth config0) = Ret (published [ruleA; ruleAB]) ∧
  result (reloadRulesets worldOnlyB (published [ruleA; ruleAB])) = Ret (published [ruleAB]) ∧
  result (reloadRulesets worldNone (published [ruleAB])) = Ret (published []).
Proof. repeat split; vm_compute; reflexivity. Qed.

(** C1 (amended): for every configured list of sources none of whose
    documents defines cluster variables, a reload ends normally and publishes
    a ruleset built from nothing but this run: a source that fails to be
    fetched or parsed is skipped, the rules of the sources that load are
    concatenated in source order, and what the configuration held before the
    reload plays no part (a source that has become unreachable contributes
    nothing, and the ruleset is empty when no source loads). *)
Theorem reload_publishes_loaded_sources (src : Sources) (config : Config) :
  Forall (fun cfg => ¬ sourceDefinesVariables src cfg) (MonitorDefinitionsPath config) →
  result (reloadRulesets src config) =
    Ret (set_Rulesets config
           (Some {| ClusterVariables := None;
                    MonitorSets := loadedRules src (MonitorDefinitionsPath config) |})) ∧
  (∀ rule, rule ∈ loadedRules src (MonitorDefinitionsPath config) ↔
           ∃ cfg rSet, cfg ∈ MonitorDefinitionsPath config ∧
                       loaded src cfg = Some rSet ∧ rule ∈ MonitorSets rSet) ∧
  (∀ previous, result (reloadRulesets src (set_Rulesets config previous)) =
               result (reloadRulesets src config)) ∧
  ((∀ cfg, cfg ∈ MonitorDefinitionsPath config → loaded src cfg = None) →
   loadedRules src (MonitorDefinitionsPath config) = []).
Proof.
  intros Hvars.
  assert (Hno : ¬ Exists (sourceDefinesVariables src) (MonitorDefinitionsPath config)).
  { intros (cfg & Hin & Hv)%Exists_exists.
    rewrite Forall_forall in Hvars. by apply (Hvars cfg). }
  split; [|split; [|split]].
  - rewrite reloadRulesets_result. by rewrite decide_False.
  - intros rule. apply elem_of_loadedRules.
  - intros previous. rewrite !reloadRulesets_result. simpl.
    by rewrite !decide_False.
  - intros Hnone. unfold loadedRules.
    induction (MonitorDefinitionsPath config) as [|cfg rest IH]; [done|].
    simpl. rewrite (Hnone cfg) by (by left). simpl.
    apply IH.
    + by inversion Hvars.
    + intros He. apply Hno. by right.
    + intros c Hc. apply Hnone. by right.
Qed.

Lemma reload_publishes_loaded_sources_witness :
  Forall (fun cfg => ¬ sourceDefinesVariables worldOnlyB cfg)
    (MonitorDefinitionsPath (published [ruleA; ruleAB])) ∧
  result (reloadRulesets worldOnlyB (published [ruleA; ruleAB])) =
    Ret (set_Rulesets (published [ruleA; ruleAB])
           (Some {| ClusterVariables := None;
                    MonitorSets := loadedRules worldOnlyB
                      (MonitorDefinitionsPath (published [ruleA; ruleAB])) |})).
Proof.
  assert (Hvars : Forall (fun cfg => ¬ sourceDefinesVariables worldOnlyB cfg)
                    (MonitorDefinitionsPath (published [ruleA; ruleAB]))).
  { apply (bool_decide_unpack _). vm_compute. exact I. }
  split; [exact Hvars|].
  exact (proj1 (reload_publishes_loaded_sources worldOnlyB
                  (published [ruleA; ruleAB]) Hvars)).
Defined.

(** C5 fails on the code: the one source that can be read parses to a
    document with the cluster variable [env = prod]; copying it into the
    fresh collection writes to a nil map, and the reload ends in a panic. *)
Theorem reload_panics_on_cluster_variables :
  loaded worldVars "a.yml" = Some docVars ∧
  ClusterVariables docVars = Some {[ "env" := "prod" ]} ∧
  result (reloadRulesets worldVars config0) = Panic nil_map_write.
Proof. repeat split; vm_compute; reflexivity. Qed.

End StoreClaims.

(** ** Provisioned-state reader and sync step *)

Section SyncClaims.
Import Sync Spec Examples.

Lemma findByName_first monitors name dd :
  provisionedAs monitors name dd →
  findByName monitors name = mret (Some dd).
Proof.
  intros (before & after & -> & Hname & Hbefore).
  induction Hbefore as [|p before (n & Hn & Hne) _ IH]; simpl.
  - rewrite Hname. unfold mbind, M_bind, bind; simpl.
    by rewrite decide_True.
  - rewrite Hn. unfold mbind, M_bind, bind; simpl.
    rewrite decide_False by done. by rewrite IH.
Qed.

(** Converting back what [toDdMonitor] built returns the monitor, but for
    [Locked], which comes back false. *)
Lemma toMonitor_toDdMonitor monitor id :
  toMonitor (datadog.set_Id (toDdMonitor monitor) id) = mret
    {| conf.Name := conf.Name monitor; conf.Type_ := conf.Type_ monitor;
       conf.Query := conf.Query monitor; conf.Message := conf.Message monitor;
       conf.Tags := conf.Tags monitor;
       conf.NoDataTimeframe := conf.NoDataTimeframe monitor;
       conf.NotifyAudit := conf.NotifyAudit monitor;
       conf.NotifyNoData := conf.NotifyNoData monitor;
       conf.RenotifyInterval := conf.RenotifyInterval monitor;
       conf.NewHostDelay := conf.NewHostDelay monitor;
       conf.EvaluationDelay := conf.EvaluationDelay monitor;
       conf.Timeout := conf.Timeout monitor;
       conf.EscalationMessage := conf.EscalationMessage monitor;
       conf.Thresholds_ := conf.Thresholds_ monitor;
       conf.RequireFullWindow := conf.RequireFullWindow monitor;
       conf.Locked := false |}.
Proof. destruct monitor as [? ? ? ? ? ? ? ? ? ? ? ? ? [] ? ?]. reflexivity. Qed.

Lemma toMonitor_roundtrip monitor id :
  conf.Locked monitor = false →
  toMonitor (datadog.set_Id (toDdMonitor monitor) id) = mret monitor.
Proof.
  intros Hlocked. rewrite toMonitor_toDdMonitor.
  destruct monitor; simpl in *; by subst.
Qed.

Lemma GetProvisionedMonitor_found client config monitor monitors dd :
  onGetMonitorsByTags client [OwnerTag config] = (monitors, None) →
  provisionedAs monitors (conf.Name monitor) dd →
  GetProvisionedMonitor client config monitor =
    MkM [ECall (GetMonitorsByTags [OwnerTag config])] (Ret (Some dd, None)).
Proof.
  intros Hlist Hprov. unfold GetProvisionedMonitor, GetProvisionedMonitors.
  rewrite Hlist, emit_then_ret, bind_value. cbv beta iota.
  rewrite (findByName_first _ _ _ Hprov), bind_ret_l. reflexivity.
Qed.

(** A failed listing is answered with a create call. *)
Lemma AddOrUpdate_creates_on_read_error client config monitor monitors e :
  onGetMonitorsByTags client [OwnerTag config] = (monitors, Some e) →
  calls (trace (AddOrUpdate client config monitor)) =
    [GetMonitorsByTags [OwnerTag config]; CreateMonitor (toDdMonitor monitor)].
Proof.
  intros Hlist.
  unfold AddOrUpdate, GetProvisionedMonitor, GetProvisionedMonitors, createMonitor.
  rewrite Hlist.
  destruct (onCreateMonitor client (toDdMonitor monitor)) as [[p|] [e'|]]; reflexivity.
Qed.

(** C2 fails on the code: the listing call of [clientUnreachable] returns an
    error, and the sync step goes on to issue a create call for the
    monitor. *)
Theorem create_issued_when_listing_fails :
  onGetMonitorsByTags clientUnreachable [OwnerTag config0] = ([], Some "connection refused") ∧
  calls (trace (AddOrUpdate clientUnreachable config0 desired)) =
    [GetMonitorsByTags ["dd-manager"]; CreateMonitor (toDdMonitor desired)] ∧
  result (AddOrUpdate clientUnreachable config0 desired) = Ret (Some 8, None).
Proof. repeat split; vm_compute; reflexivity. Qed.

(** C9 fails on the code: with an owned backend monitor of that name (id 7)
    the call lists the monitors, issues no delete and returns nil; with no
    such monitor it panics on a nil monitor pointer. *)
Theorem DeleteMonitor_branches_swapped :
  provisionedAs [provisioned (conf.Tags desired)] (conf.Name desired)
    (provisioned (conf.Tags desired)) ∧
  datadog.Id (provisioned (conf.Tags desired)) = Some 7 ∧
  DeleteMonitor (clientWith [provisioned (conf.Tags desired)]) config0 desired =
    MkM [ECall (GetMonitorsByTags ["dd-manager"])] (Ret None) ∧
  DeleteMonitor (clientWith []) config0 desired =
    MkM [ECall (GetMonitorsByTags ["dd-manager"])] (Panic nil_deref).
Proof.
  split; [|repeat split; vm_compute; reflexivity].
  exists [], []. repeat split. constructor.
Qed.

(** C7, as stated, fails: the backend holds the desired monitor with the
    same two tags in the other order, and the sync step issues an update. *)
Lemma update_issued_for_reordered_tags :
  convergedUpToTagOrder desired (provisioned (Some ["env:prod"; "team:core"])) ∧
  provisionedAs [provisioned (Some ["env:prod"; "team:core"])] (conf.Name desired)
    (provisioned (Some ["env:prod"; "team:core"])) ∧
  calls (trace (AddOrUpdate (clientWith [provisioned (Some ["env:prod"; "team:core"])])
                  config0 desired)) =
    [GetMonitorsByTags ["dd-manager"]; UpdateMonitor (toDdMonitor desired)].
Proof.
  split; [|split].
  - exists (Some 7), (Some ["env:prod"; "team:core"]). split; [|reflexivity].
    simpl. apply perm_swap.
  - exists [], []. repeat split. constructor.
  - vm_compute. reflexivity.
Qed.

(** C7 (amended): for every desired monitor whose [Locked] option is off and
    every provisioned list in which the monitor of that name is field for
    field what the sync step sends for it, with the tags equal as lists
    (same values in the same order), the sync step lists the provisioned
    monitors and issues no create and no update call, and returns the
    provisioned monitor's id. *)
Theorem AddOrUpdate_noop_when_converged
    (client : DatadogClient) (config : Config) (monitor : conf.Monitor)
    (monitors : list datadog.Monitor) (dd : datadog.Monitor) :
  onGetMonitorsByTags client [OwnerTag config] = (monitors, None) →
  provisionedAs monitors (conf.Name monitor) dd →
  converged monitor dd →
  conf.Locked monitor = false →
  calls (trace (AddOrUpdate client config monitor)) = [GetMonitorsByTags [OwnerTag config]] ∧
  filter isWrite (calls (trace (AddOrUpdate client config monitor))) = [] ∧
  result (AddOrUpdate client config monitor) = Ret (datadog.Id dd, None).
Proof.
  intros Hlist Hprov [id ->] Hlocked.
  assert (Hrun : AddOrUpdate client config monitor =
                 MkM [ECall (GetMonitorsByTags [OwnerTag config]);
                      ELog Info "Monitor %d exists and is up to date." [AId id]]
                     (Ret (id, None))).
  { unfold AddOrUpdate.
    rewrite (GetProvisionedMonitor_found _ _ _ _ _ Hlist Hprov).
    rewrite bind_value. cbv beta iota.
    rewrite !deref_Some, !bind_ret_l, (toMonitor_roundtrip _ _ Hlocked), bind_ret_l.
    unfold DeepEqual. rewrite bool_decide_eq_true_2 by done.
    reflexivity. }
  rewrite Hrun. by destruct monitor.
Qed.

Lemma AddOrUpdate_noop_when_converged_witness :
  calls (trace (AddOrUpdate (clientWith [provisioned (conf.Tags desired)]) config0 desired)) =
    [GetMonitorsByTags [OwnerTag config0]] ∧
  filter isWrite
    (calls (trace (AddOrUpdate (clientWith [provisioned (conf.Tags desired)]) config0 desired))) = [] ∧
  result (AddOrUpdate (clientWith [provisioned (conf.Tags desired)]) config0 desired) =
    Ret (datadog.Id (provisioned (conf.Tags desired)), None).
Proof.
  apply (AddOrUpdate_noop_when_converged
           (clientWith [provisioned (conf.Tags desired)]) config0 desired
           [provisioned (conf.Tags desired)] (provisioned (conf.Tags desired))).
  - reflexivity.
  - exists [], []. repeat split. constructor.
  - exists (Some 7). reflexivity.
  - reflexivity.
Defined.

End SyncClaims.

(** ** Deployment handlers *)

Section HandlerClaims.
Import Handler Spec Examples.

Lemma silent_executeInto engine t deployment tpl format :
  silent (executeInto engine t deployment tpl format).
Proof.
  unfold executeInto. apply silent_bind; [apply silent_deref|].
  intros tmpl. destruct (Execute engine tmpl deployment) as [written [e|]].
  - apply silent_bind; [apply silent_log | intros; apply silent_ret].
  - apply silent_ret.
Qed.

Lemma silent_applyDeploymentTemplate engine deployment monitor :
  silent (applyDeploymentTemplate engine deployment monitor).
Proof.
  unfold applyDeploymentTemplate.
  destruct (Parse engine (conf.Name monitor)) as [name ?].
  destruct (Parse engine (conf.Query monitor)) as [query ?].
  destruct (Parse engine (conf.Message monitor)) as [msg ?].
  destruct (Parse engine (conf.EscalationMessage monitor)) as [em ?].
  repeat (apply silent_bind; [apply silent_executeInto | intros ?]).
  apply silent_ret.
Qed.

Lemma silent_templateAll engine deployment monitors :
  silent (templateAll engine deployment monitors).
Proof.
  unfold templateAll. apply silent_forRange. intros [] monitor.
  apply silent_bind; [apply silent_log | intros _].
  apply silent_bind; [apply silent_applyDeploymentTemplate | intros; apply silent_ret].
Qed.

(** What one [Execute] leaves in an empty buffer, and the line logged if it
    failed. *)
Lemma executeInto_parsed engine (t : Template engine) deployment format :
  executeInto engine (Some t) deployment EmptyString format =
  MkM (if (Execute engine t deployment).2 is Some e
       then [ELog Error format [AStr e]] else [])
      (Ret (Execute engine t deployment).1).
Proof.
  unfold executeInto. rewrite deref_Some, bind_ret_l.
  by destruct (Execute engine t deployment) as [written [e|]].
Qed.

(** A template whose text did not parse is a nil pointer, and executing it
    panics: here the query's action is not closed. *)
Lemma applyDeploymentTemplate_panics_on_parse_error :
  (Parse TextTemplate.engine "avg:cpu.{{.Name").1 = None ∧
  result (applyDeploymentTemplate TextTemplate.engine api
            (template "cpu {{.Name}}" "avg:cpu.{{.Name")) = Panic nil_deref.
Proof. split; vm_compute; reflexivity. Qed.

(** C8, as stated, fails: the query of [badQuery] names a field the
    deployment does not have, so its execution fails after writing the text
    before the action.  The name is rendered, the failure is logged, and the
    query is set to that partial output rather than left as it was. *)
Lemma failed_field_is_overwritten :
  conf.Query badQuery = "avg:cpu.{{.Nope}} > 90" ∧
  applyDeploymentTemplate TextTemplate.engine api badQuery =
    MkM [ELog Error "Error templating query: %s" [AStr "can't evaluate field Nope"]]
        (Ret (template "cpu prod/api" "avg:cpu.")).
Proof. split; vm_compute; reflexivity. Qed.

(** C8 (amended): for every template engine, live object and monitor whose
    four text fields parse, rendering ends normally; each text field is
    executed on its own in an emptied buffer and is set to what that
    execution wrote, whether or not it failed (on a failure that is the
    output written before the failure, not the unrendered text); a failure is
    logged at error level and the remaining fields are still rendered; the
    other fields of the monitor are unchanged. *)
Theorem applyDeploymentTemplate_renders_each_field
    (engine : TemplateEngine) (deployment : Deployment) (monitor : conf.Monitor)
    (name query msg em : Template engine) :
  (Parse engine (conf.Name monitor)).1 = Some name →
  (Parse engine (conf.Query monitor)).1 = Some query →
  (Parse engine (conf.Message monitor)).1 = Some msg →
  (Parse engine (conf.EscalationMessage monitor)).1 = Some em →
  let written t := (Execute engine t deployment).1 in
  let failure t format :=
    if (Execute engine t deployment).2 is Some _ then [format] else [] in
  result (applyDeploymentTemplate engine deployment monitor) =
    Ret (conf.set_EscalationMessage
           (conf.set_Message
              (conf.set_Query (conf.set_Name monitor (written name)) (written query))
              (written msg))
           (written em)) ∧
  errorsLogged (trace (applyDeploymentTemplate engine deployment monitor)) =
    failure name "Error templating name: %s" ++
    failure query "Error templating query: %s" ++
    failure msg "Error templating message: %s" ++
    failure em "Error templating escalation message: %s".
Proof.
  intros Hname Hquery Hmsg Hem written failure. subst written failure.
  unfold applyDeploymentTemplate.
  destruct (Parse engine (conf.Name monitor)) as [? ?].
  destruct (Parse engine (conf.Query monitor)) as [? ?].
  destruct (Parse engine (conf.Message monitor)) as [? ?].
  destruct (Parse engine (conf.EscalationMessage monitor)) as [? ?].
  simpl in Hname, Hquery, Hmsg, Hem. subst.
  rewrite !executeInto_parsed.
  destruct (Execute engine name deployment) as [w1 [e1|]];
    destruct (Execute engine query deployment) as [w2 [e2|]];
    destruct (Execute engine msg deployment) as [w3 [e3|]];
    destruct (Execute engine em deployment) as [w4 [e4|]];
    split; reflexivity.
Qed.

Lemma applyDeploymentTemplate_renders_each_field_witness :
  result (applyDeploymentTemplate TextTemplate.engine api badQuery) =
    Ret (template "cpu prod/api" "avg:cpu.") ∧
  errorsLogged (trace (applyDeploymentTemplate TextTemplate.engine api badQuery)) =
    ["Error templating query: %s"].
Proof.
  exact (applyDeploymentTemplate_renders_each_field TextTemplate.engine api badQuery
           [TextTemplate.TextNode "cpu "; TextTemplate.FieldNode "Namespace";
            TextTemplate.TextNode "/"; TextTemplate.FieldNode "Name"]
           [TextTemplate.TextNode "avg:cpu."; TextTemplate.FieldNode "Nope";
            TextTemplate.TextNode " > 90"]
           [TextTemplate.TextNode "cpu is high"]
           [TextTemplate.TextNode "still high"]
           eq_refl eq_refl eq_refl eq_refl).
Defined.

(** C4, as stated, fails: for a deleted deployment with one matching
    monitor, the deletion handler logs its entry line and then does what the
    creation handler does, rendering the matching monitor's templates; its
    trace holds no backend call, so no delete is issued. *)
Lemma deletion_handler_issues_no_delete :
  matching (d_Annotations api) "deployment" = [goodTemplate] ∧
  OnDeletedDeployment TextTemplate.engine matching api =
    MkM [ELog Info "I finally made it to my deletion handler." [];
         ELog Info "looping monitor %s" [AStr "cpu {{.Namespace}}/{{.Name}}"]]
        (Ret tt) ∧
  filter isDelete (calls (trace (OnDeletedDeployment TextTemplate.engine matching api))) = [].
Proof. repeat split; vm_compute; reflexivity. Qed.

End HandlerClaims.

(** * Further properties of the code *)

(** ** Matcher and binding *)

Section MatcherFurther.
Import Matcher Binding Spec Facts Examples.

Lemma collect_spec (l : list MonitorSet) (acc : list datadog.Monitor) :
  fold_left (fun validMonitors mSet => validMonitors ++ Monitors mSet) l acc =
  acc ++ mjoin (Monitors <$> l).
Proof.
  revert acc. induction l as [|r l IH]; intros acc; simpl.
  - by rewrite app_nil_r.
  - by rewrite IH, app_assoc.
Qed.

Lemma GetMatchingMonitors_spec rules annotations objectType :
  GetMatchingMonitors rules annotations objectType =
  mjoin (Monitors <$> filter (selects annotations objectType) (MonitorSets rules)).
Proof.
  unfold GetMatchingMonitors. by rewrite collect_spec, getMatchingRulesets_spec.
Qed.

Lemma contains_spec (l : list string) (key : string) :
  contains l key = true ↔ key ∈ l.
Proof.
  unfold contains. rewrite existsb_exists. split.
  - intros (x & Hin & Heq). apply bool_decide_eq_true in Heq as ->.
    by apply list_elem_of_In.
  - intros Hin. exists key. split; [by apply list_elem_of_In|].
    by apply bool_decide_eq_true.
Qed.

Lemma boundLoop_spec objectType (l : list MonitorSet) (acc : list datadog.Monitor) :
  fold_left (boundStep objectType) l acc =
  acc ++ mjoin (Monitors <$> filter (binds objectType) l).
Proof.
  revert acc. induction l as [|r l IH]; intros acc; simpl.
  - by rewrite app_nil_r.
  - rewrite IH, boundStep_spec.
    destruct (contains (BoundObjects r) objectType) eqn:Hc.
    + apply contains_spec in Hc.
      rewrite filter_cons_True by done. simpl. by rewrite app_assoc.
    + rewrite filter_cons_False; [done|].
      unfold binds. rewrite <- contains_spec. by rewrite Hc.
Qed.

(** X1: the monitors the matcher returns for an object are the monitors of
    the selected rules, rule after rule in declaration order, each rule's
    monitors in their order; a monitor is returned exactly when a selected
    rule of the ruleset lists it. *)
Theorem GetMatchingMonitors_joins_selected_rules
    (rules : ruleset) (annotations : gmap string string) (objectType : string) :
  GetMatchingMonitors rules annotations objectType =
    mjoin (Monitors <$> getMatchingRulesets rules annotations objectType) ∧
  ∀ m, m ∈ GetMatchingMonitors rules annotations objectType ↔
       ∃ rule, rule ∈ MonitorSets rules ∧
               selects annotations objectType rule ∧ m ∈ Monitors rule.
Proof.
  split.
  - by rewrite GetMatchingMonitors_spec, getMatchingRulesets_spec.
  - intros m. rewrite GetMatchingMonitors_spec, list_elem_of_join. split.
    + intros (l & Hm & Hl). apply list_elem_of_fmap in Hl as (rule & -> & Hrule).
      apply list_elem_of_filter in Hrule as [Hsel Hin]. by exists rule.
    + intros (rule & Hin & Hsel & Hm). exists (Monitors rule). split; [done|].
      apply list_elem_of_fmap. exists rule. split; [done|].
      by apply list_elem_of_filter.
Qed.

(** X2: an object that carries no annotation is matched by no rule and
    receives no monitor, whatever the ruleset and the object type. *)
Theorem no_annotations_no_monitors (rules : ruleset) (objectType : string) :
  getMatchingRulesets rules ∅ objectType = [] ∧
  GetMatchingMonitors rules ∅ objectType = [].
Proof.
  assert (Hnone : filter (selects ∅ objectType) (MonitorSets rules) = []).
  { induction (MonitorSets rules) as [|r l IH]; [done|].
    rewrite filter_cons_False; [done|].
    intros (_ & Hne & Hall). destruct (Annotations r) as [|a rest]; [done|].
    apply Forall_cons in Hall as [Hp _]. unfold present in Hp.
    by rewrite lookup_empty in Hp. }
  split.
  - by rewrite getMatchingRulesets_spec.
  - by rewrite GetMatchingMonitors_spec, Hnone.
Qed.

(** X3: an object type for which the ruleset declares no rule yields the
    empty result, not an error. *)
Theorem undeclared_type_yields_nothing
    (rules : ruleset) (annotations : gmap string string) (objectType : string) :
  Forall (fun rule => ObjectType rule ≠ objectType) (MonitorSets rules) →
  getMatchingRulesets rules annotations objectType = [] ∧
  GetMatchingMonitors rules annotations objectType = [].
Proof.
  intros Hnone.
  assert (Hfilter : filter (selects annotations objectType) (MonitorSets rules) = []).
  { induction Hnone as [|r l Hr _ IH]; [done|].
    rewrite filter_cons_False; [done|]. by intros (Hty & _). }
  split.
  - by rewrite getMatchingRulesets_spec.
  - by rewrite GetMatchingMonitors_spec, Hfilter.
Qed.

Lemma undeclared_type_yields_nothing_witness :
  getMatchingRulesets rules1 annABC "statefulset" = [] ∧
  GetMatchingMonitors rules1 annABC "statefulset" = [].
Proof.
  apply (undeclared_type_yields_nothing rules1 annABC "statefulset").
  unfold rules1; simpl. repeat constructor; discriminate.
Defined.

(** X4: matching a ruleset whose rules are the rules of one ruleset followed
    by those of another gives the matches in the first followed by the
    matches in the second: merging sources and matching commute. *)
Theorem matching_distributes_over_merge
    (first second : ruleset) (variables : option (gmap string string))
    (annotations : gmap string string) (objectType : string) :
  let merged := {| ClusterVariables := variables;
                   MonitorSets := MonitorSets first ++ MonitorSets second |} in
  getMatchingRulesets merged annotations objectType =
    getMatchingRulesets first annotations objectType
    ++ getMatchingRulesets second annotations objectType ∧
  GetMatchingMonitors merged annotations objectType =
    GetMatchingMonitors first annotations objectType
    ++ GetMatchingMonitors second annotations objectType.
Proof.
  simpl. rewrite !getMatchingRulesets_spec, !GetMatchingMonitors_spec. simpl.
  rewrite filter_app, fmap_app, join_app. done.
Qed.

End MatcherFurther.

(** ** Ruleset store and loader *)

Section StoreFurther.
Import Matcher Store Spec Facts Examples Inputs.

Lemma forRange_cons {A S} (x : A) (xs : list A) (body : S → A → M S) (s : S) :
  forRange (x :: xs) body s = body s x ≫= λ s', forRange xs body s'.
Proof. reflexivity. Qed.

Lemma errorsLogged_app (t1 t2 : list Event) :
  errorsLogged (t1 ++ t2) = errorsLogged t1 ++ errorsLogged t2.
Proof. unfold errorsLogged. apply omap_app. Qed.

Lemma reloadStep_errors src paths acc cfg :
  ClusterVariables acc = None →
  ¬ sourceDefinesVariables src cfg →
  errorsLogged (trace (reloadStep src paths acc cfg)) = option_list (failureLine src cfg).
Proof.
  intros Hnil Hvars.
  unfold reloadStep, failureLine, sourceDefinesVariables, loaded in *.
  destruct (loadFromPath src cfg) as [yml [e|]]; simpl; [done|].
  destruct (Unmarshal src yml) as [rSet [e|]]; simpl; [done|].
  rewrite copyVariables_nothing; [by rewrite Hnil|].
  unfold definesVariables in Hvars.
  by destruct (decide (default ∅ (ClusterVariables rSet) = ∅)).
Qed.

Lemma reloadLoop_errors src allPaths paths acc :
  ClusterVariables acc = None →
  Forall (fun cfg => ¬ sourceDefinesVariables src cfg) paths →
  errorsLogged (trace (forRange paths (reloadStep src allPaths) acc)) =
  omap (failureLine src) paths.
Proof.
  intros Hnil Hvars. revert acc Hnil.
  induction Hvars as [|cfg rest Hcfg Hrest IH]; intros acc Hnil; [done|].
  rewrite forRange_cons.
  erewrite trace_bind by (by apply reloadStep_no_variables).
  rewrite errorsLogged_app, reloadStep_errors by done.
  rewrite IH by done. simpl. by destruct (failureLine src cfg).
Qed.

Lemma loadedRules_cons src cfg rest :
  loadedRules src (cfg :: rest) =
  default [] (MonitorSets <$> loaded src cfg) ++ loadedRules src rest.
Proof. unfold loadedRules; simpl. by destruct (loaded src cfg). Qed.

(** X7: a reload either publishes a ruleset or panics, and it panics, with
    the message of a write to a nil map, exactly when one of the configured
    sources loads and its document defines a cluster variable. *)
Theorem reload_panics_iff_variables (src : Sources) (config : Config) :
  ((∃ msg, result (reloadRulesets src config) = Panic msg) ↔
   Exists (sourceDefinesVariables src) (MonitorDefinitionsPath config)) ∧
  ((∃ config', result (reloadRulesets src config) = Ret config') ↔
   Forall (fun cfg => ¬ sourceDefinesVariables src cfg) (MonitorDefinitionsPath config)) ∧
  (∀ msg, result (reloadRulesets src config) = Panic msg → msg = nil_map_write).
Proof.
  rewrite reloadRulesets_result.
  destruct (decide (Exists (sourceDefinesVariables src) (MonitorDefinitionsPath config)))
    as [He|He].
  - split; [|split].
    + split; [done | by eexists].
    + split; [by intros [? [=]]|].
      intros Hall. exfalso. apply Exists_exists in He as (cfg & Hin & Hv).
      rewrite Forall_forall in Hall. by apply (Hall cfg).
    + by intros msg [= <-].
  - split; [|split].
    + split; [by intros [? [=]] | done].
    + split; [|by eexists].
      intros _. apply Forall_forall. intros cfg Hin Hv. apply He.
      apply Exists_exists. by exists cfg.
    + by intros msg [=].
Qed.

(** X8: a reload that does not panic logs one error line for each source
    that could not be fetched or parsed, in source order, naming the step
    that failed, and none for the sources that load. *)
Theorem reload_logs_each_failed_source (src : Sources) (config : Config) :
  Forall (fun cfg => ¬ sourceDefinesVariables src cfg) (MonitorDefinitionsPath config) →
  errorsLogged (trace (reloadRulesets src config)) =
    omap (failureLine src) (MonitorDefinitionsPath config) ∧
  (∀ cfg, failureLine src cfg = None ↔ is_Some (loaded src cfg)).
Proof.
  intros Hvars. split.
  - unfold reloadRulesets.
    pose proof (reloadLoop_result src (MonitorDefinitionsPath config)
                  (MonitorDefinitionsPath config)
                  {| ClusterVariables := None; MonitorSets := [] |} eq_refl) as Hloop.
    rewrite decide_False in Hloop.
    + erewrite trace_bind by exact Hloop.
      rewrite errorsLogged_app, reloadLoop_errors by done. simpl.
      by rewrite app_nil_r.
    + intros (cfg & Hin & Hv)%Exists_exists.
      rewrite Forall_forall in Hvars. by apply (Hvars cfg).
  - intros cfg. unfold failureLine, loaded.
    destruct (loadFromPath src cfg) as [yml [e|]].
    + split; [done | by intros [? [=]]].
    + destruct (Unmarshal src yml) as [rSet [e|]].
      * split; [done | by intros [? [=]]].
      * split; [by eexists | done].
Qed.

Lemma reload_logs_each_failed_source_witness :
  errorsLogged (trace (reloadRulesets worldOnlyB config0)) =
    omap (failureLine worldOnlyB) (MonitorDefinitionsPath config0).
Proof.
  assert (Hvars : Forall (fun cfg => ¬ sourceDefinesVariables worldOnlyB cfg)
                    (MonitorDefinitionsPath config0)).
  { apply (bool_decide_unpack _). vm_compute. exact I. }
  exact (proj1 (reload_logs_each_failed_source worldOnlyB config0 Hvars)).
Defined.

(** X9: after a reload that returns, the configuration holds a ruleset (the
    pointer is not nil), and the monitors the matcher finds in it for an
    object are, source after source in the configured order, the monitors it
    finds in each source that loaded; a source that failed contributes
    none. *)
Theorem matching_after_reload
    (src : Sources) (config config' : Config)
    (annotations : gmap string string) (objectType : string) :
  result (reloadRulesets src config) = Ret config' →
  ∃ rules,
    Rulesets config' = Some rules ∧
    GetMatchingMonitors rules annotations objectType =
      mjoin (sourceMonitors src annotations objectType <$> MonitorDefinitionsPath config).
Proof.
  rewrite reloadRulesets_result. case_decide; [done|]. intros [= <-].
  eexists. split; [reflexivity|].
  rewrite GetMatchingMonitors_spec. simpl.
  induction (MonitorDefinitionsPath config) as [|cfg rest IH]; [done|].
  rewrite loadedRules_cons, filter_app, fmap_app, join_app.
  rewrite IH; [|intros He; apply H; by right]. simpl. f_equal.
  unfold sourceMonitors. destruct (loaded src cfg) as [rSet|]; simpl; [|done].
  by rewrite GetMatchingMonitors_spec.
Qed.

Lemma matching_after_reload_witness :
  ∃ rules,
    Rulesets (published [ruleAB]) = Some rules ∧
    GetMatchingMonitors rules annABC "deployment" =
      mjoin (sourceMonitors worldOnlyB annABC "deployment" <$> MonitorDefinitionsPath config0).
Proof.
  apply (matching_after_reload worldOnlyB config0 (published [ruleAB]) annABC "deployment").
  vm_compute. reflexivity.
Defined.

Lemma loadedRules_without src path paths :
  loaded src path = None →
  loadedRules src paths = loadedRules src (filter (fun cfg => cfg ≠ path) paths).
Proof.
  intros Hnone. induction paths as [|cfg rest IH]; [done|].
  rewrite loadedRules_cons. destruct (decide (cfg = path)) as [->|Hne].
  - rewrite filter_cons_False by (by intros ?). by rewrite Hnone.
  - rewrite filter_cons_True by done. by rewrite loadedRules_cons, IH.
Qed.

Lemma reloadLoop_logs_fetch_error src allPaths paths acc cfg yml e :
  ClusterVariables acc = None →
  Forall (fun cfg => ¬ sourceDefinesVariables src cfg) paths →
  cfg ∈ paths →
  loadFromPath src cfg = (yml, Some e) →
  ELog Error "Could not load config file %s: %v" [AStr cfg; AStr e]
    ∈ trace (forRange paths (reloadStep src allPaths) acc).
Proof.
  intros Hnil Hvars Hin Hload. revert acc Hnil.
  induction Hvars as [|c rest Hc Hrest IH]; intros acc Hnil;
    [by apply elem_of_nil in Hin|].
  rewrite forRange_cons.
  erewrite trace_bind by (by apply reloadStep_no_variables).
  apply elem_of_app. apply elem_of_cons in Hin as [<-|Hin].
  - left. unfold reloadStep. rewrite Hload. simpl. set_solver.
  - right. by apply IH.
Qed.

(** X10: for a path that does not begin with http:// or https:// and that
    os.Stat cannot find, [loadFromPath] returns no data and the error "not a
    valid path or URL" (the error of os.Stat is dropped, the file is not
    read); a reload of a configuration that lists the path logs that error
    for it and publishes what it would publish if the path were not
    listed. *)
Theorem missing_local_source_is_skipped
    (os : OS) (unmarshal : string → ruleset * option error) (path : string) (e : error)
    (config : Config) :
  Loader.isURL path = false →
  osStat os path = Some e →
  path ∈ MonitorDefinitionsPath config →
  Forall (fun cfg => ¬ sourceDefinesVariables (Loader.sources os unmarshal) cfg)
    (MonitorDefinitionsPath config) →
  Loader.loadFromPath os path = (EmptyString, Some "not a valid path or URL") ∧
  ELog Error "Could not load config file %s: %v" [AStr path; AStr "not a valid path or URL"]
    ∈ trace (reloadRulesets (Loader.sources os unmarshal) config) ∧
  result (reloadRulesets (Loader.sources os unmarshal) config) =
    Ret (set_Rulesets config
           (Some {| ClusterVariables := None;
                    MonitorSets :=
                      loadedRules (Loader.sources os unmarshal)
                        (filter (fun cfg => cfg ≠ path) (MonitorDefinitionsPath config)) |})).
Proof.
  intros Hurl Hstat Hin Hvars.
  assert (Hload : Loader.loadFromPath os path = (EmptyString, Some "not a valid path or URL")).
  { unfold Loader.loadFromPath. by rewrite Hurl, Hstat. }
  assert (Hno : ¬ Exists (sourceDefinesVariables (Loader.sources os unmarshal))
                    (MonitorDefinitionsPath config)).
  { intros (cfg & Hcfg & Hv)%Exists_exists.
    rewrite Forall_forall in Hvars. by apply (Hvars cfg). }
  split; [done|]. split.
  - unfold reloadRulesets.
    pose proof (reloadLoop_result (Loader.sources os unmarshal)
                  (MonitorDefinitionsPath config) (MonitorDefinitionsPath config)
                  {| ClusterVariables := None; MonitorSets := [] |} eq_refl) as Hloop.
    rewrite decide_False in Hloop by done.
    erewrite trace_bind by exact Hloop.
    apply elem_of_app. left.
    by apply (reloadLoop_logs_fetch_error _ _ _ _ path EmptyString).
  - rewrite reloadRulesets_result, decide_False by done.
    rewrite <- loadedRules_without; [done|].
    unfold loaded, Loader.sources; simpl. by rewrite Hload.
Qed.

Lemma missing_local_source_is_skipped_witness :
  ELog Error "Could not load config file %s: %v" [AStr "a.yml"; AStr "not a valid path or URL"]
    ∈ trace (reloadRulesets (Loader.sources online_but_a parseDoc) config0) ∧
  result (reloadRulesets (Loader.sources online_but_a parseDoc) config0) =
    Ret (set_Rulesets config0
           (Some {| ClusterVariables := None;
                    MonitorSets :=
                      loadedRules (Loader.sources online_but_a parseDoc)
                        (filter (fun cfg => cfg ≠ "a.yml") (MonitorDefinitionsPath config0)) |})).
Proof.
  assert (Hvars : Forall (fun cfg => ¬ sourceDefinesVariables
                                        (Loader.sources online_but_a parseDoc) cfg)
                    (MonitorDefinitionsPath config0)).
  { apply (bool_decide_unpack _). vm_compute. exact I. }
  assert (Hin : "a.yml" ∈ MonitorDefinitionsPath config0).
  { unfold config0; simpl. apply elem_of_cons. by left. }
  exact (proj2 (missing_local_source_is_skipped online_but_a parseDoc "a.yml"
                  "no such file or directory" config0 eq_refl eq_refl Hin Hvars)).
Defined.

(** X11: for a path that begins with http:// or https:// the file system
    is not consulted, and a response is taken for the source's content
    whatever its status code: the source loads exactly when the body can be
    read and parses, so the body of an error page is parsed as a ruleset. *)
Theorem url_source_ignores_status
    (os : OS) (unmarshal : string → ruleset * option error) (path : string)
    (response : Response) :
  Loader.isURL path = true →
  httpGet os path = inl response →
  Loader.loadFromPath os path = Body response ∧
  loaded (Loader.sources os unmarshal) path =
    match Body response with
    | (yml, None) =>
        match unmarshal yml with
        | (rSet, None) => Some rSet
        | (_, Some _) => None
        end
    | (_, Some _) => None
    end.
Proof.
  intros Hurl Hget.
  assert (Hload : Loader.loadFromPath os path = Body response).
  { unfold Loader.loadFromPath. by rewrite Hurl, Hget. }
  split; [done|].
  unfold loaded, Loader.sources; simpl. rewrite Hload.
  by destruct (Body response) as [yml [e|]].
Qed.

Lemma url_source_ignores_status_witness :
  Loader.loadFromPath online "https://conf/b.yml" = ("B", None) ∧
  loaded (Loader.sources online parseDoc) "https://conf/b.yml" = Some docB.
Proof.
  exact (url_source_ignores_status online parseDoc "https://conf/b.yml"
           {| StatusCode := 404; Body := ("B", None) |} eq_refl eq_refl).
Defined.

End StoreFurther.

(** ** Environment and singleton *)

Section EnvFurther.
Import Env Store Singleton Examples Inputs.

Lemma app_cons c (s t : string) : String c s +:+ t = String c (s +:+ t).
Proof. reflexivity. Qed.

Lemma app_empty_r (s : string) : s +:+ EmptyString = s.
Proof. induction s as [|c s IH]; [done|]. by rewrite app_cons, IH. Qed.

Lemma app_assoc_string (a b c : string) : (a +:+ b) +:+ c = a +:+ (b +:+ c).
Proof. induction a as [|x a IH]; [done|]. by rewrite !app_cons, IH. Qed.

Lemma length_app_string (a b : string) :
  String.length (a +:+ b) = (String.length a + String.length b)%nat.
Proof. induction a as [|x a IH]; [done|]. rewrite app_cons. simpl. by rewrite IH. Qed.

Lemma prefix_split (sep s : string) :
  String.prefix sep s = true → ∃ rest, s = sep +:+ rest.
Proof.
  revert s. induction sep as [|c sep IH]; intros s.
  - intros _. by exists s.
  - destruct s as [|d s]; simpl; [done|].
    destruct (ascii_dec c d) as [->|]; [|done].
    intros [rest ->]%IH. by exists rest.
Qed.

Lemma prefix_app (sep rest : string) : String.prefix sep (sep +:+ rest) = true.
Proof.
  induction sep as [|c sep IH]; [by destruct rest|].
  rewrite app_cons. simpl. by destruct (ascii_dec c c).
Qed.

Lemma splitFrom_skip (sep t rest cur : string) :
  splitFrom sep (t +:+ rest) (String.length t) cur = splitFrom sep rest 0 cur.
Proof.
  induction t as [|c t IH]; [by destruct rest|].
  rewrite app_cons. simpl. exact IH.
Qed.

Lemma splitFrom_cons (sep s : string) (skip : nat) (cur : string) :
  ∃ piece pieces, splitFrom sep s skip cur = piece :: pieces.
Proof.
  revert skip cur. induction s as [|c s IH]; intros skip cur; cbn [splitFrom]; [eauto|].
  destruct skip as [|k]; [|apply IH].
  destruct (String.prefix sep (String c s)); [eauto | apply IH].
Qed.

(** Cutting at a non-empty separator and joining with it gives the text
    back. *)
Lemma splitFrom_join (sep : string) (n : nat) :
  sep ≠ EmptyString →
  ∀ s cur, (String.length s ≤ n)%nat →
           String.concat sep (splitFrom sep s 0 cur) = cur +:+ s.
Proof.
  intros Hsep. induction n as [|n IH]; intros s cur Hlen.
  - destruct s; [|simpl in Hlen; lia]. simpl. by rewrite app_empty_r.
  - destruct s as [|c s]; [simpl; by rewrite app_empty_r|].
    cbn [splitFrom].
    destruct (String.prefix sep (String c s)) eqn:Hpre.
    + destruct (prefix_split _ _ Hpre) as [rest Hrest].
      destruct sep as [|d sep]; [done|].
      rewrite app_cons in Hrest. injection Hrest as <- ->.
      replace (String.length (String c sep) - 1)%nat with (String.length sep)
        by (simpl; lia).
      rewrite splitFrom_skip.
      destruct (splitFrom_cons (String c sep) rest 0 EmptyString) as (y & l & Hyl).
      pose proof (IH rest EmptyString) as Hjoin.
      rewrite Hyl in Hjoin |- *.
      change (String.concat (String c sep) (cur :: y :: l))
        with (cur +:+ String c sep +:+ String.concat (String c sep) (y :: l)).
      rewrite Hjoin; [done|].
      simpl in Hlen. rewrite length_app_string in Hlen. lia.
    + rewrite IH by (simpl in Hlen; lia).
      by rewrite app_assoc_string.
Qed.

(** A text in which the separator does not occur is one piece. *)
Lemma splitFrom_whole (sep s cur : string) :
  (∀ a b, s ≠ a +:+ sep +:+ b) →
  splitFrom sep s 0 cur = [cur +:+ s].
Proof.
  revert cur. induction s as [|c s IH]; intros cur Hfree; cbn [splitFrom].
  - by rewrite app_empty_r.
  - destruct (String.prefix sep (String c s)) eqn:Hpre.
    + destruct (prefix_split _ _ Hpre) as [rest Hrest].
      by destruct (Hfree EmptyString rest).
    + rewrite IH; [by rewrite app_assoc_string|].
      intros a b ->. by apply (Hfree (String c a) b).
Qed.

(** X12: [envAsMap] returns the default when the variable is not set; when
    it is set (the empty string included) and the delimiter is not empty, the
    list it returns is never empty, joining it with the delimiter gives the
    variable's value back, and a value in which the delimiter does not occur
    is returned as the single element of the list. *)
Theorem envAsMap_splits_value
    (env : gmap string string) (key : string) (defaultVal : list string)
    (delimiter : string) :
  delimiter ≠ EmptyString →
  (env !! key = None → envAsMap env key defaultVal delimiter = defaultVal) ∧
  (∀ value, env !! key = Some value →
     String.concat delimiter (envAsMap env key defaultVal delimiter) = value ∧
     envAsMap env key defaultVal delimiter ≠ [] ∧
     ((∀ a b, value ≠ a +:+ delimiter +:+ b) →
      envAsMap env key defaultVal delimiter = [value])).
Proof.
  intros Hsep. unfold envAsMap, Split. split.
  - by intros ->.
  - intros value ->. rewrite decide_False by done. split; [|split].
    + by rewrite (splitFrom_join delimiter (String.length value)).
    + by destruct (splitFrom_cons delimiter value 0 EmptyString) as (y & l & ->).
    + intros Hfree. by rewrite splitFrom_whole.
Qed.

Lemma envAsMap_splits_value_witness :
  String.concat ";" (envAsMap envKeys "DEFINITIONS_PATH" ["conf.yml"] ";")
    = "a.yml;https://conf/b.yml" ∧
  envAsMap envKeys "DEFINITIONS_PATH" ["conf.yml"] ";" ≠ [].
Proof.
  assert (Hsep : ";" ≠ EmptyString) by discriminate.
  pose proof (proj2 (envAsMap_splits_value envKeys "DEFINITIONS_PATH" ["conf.yml"] ";" Hsep)
                "a.yml;https://conf/b.yml" eq_refl) as (Hjoin & Hne & _).
  exact (conj Hjoin Hne).
Defined.

Lemma getEnv_result env key defaultVal :
  result (getEnv env key defaultVal) = Ret (default defaultVal (env !! key)).
Proof. unfold getEnv. by destruct (env !! key). Qed.

Lemma envAsBool_value env key defaultVal :
  result (envAsBool env key defaultVal) =
  Ret match env !! key with
      | Some value =>
          if decide (value ∈ ["1"; "t"; "T"; "TRUE"; "true"; "True"]) then true
          else if decide (value ∈ ["0"; "f"; "F"; "FALSE"; "false"; "False"]) then false
          else defaultVal
      | None => defaultVal
      end.
Proof.
  unfold envAsBool. erewrite result_bind by apply getEnv_result.
  destruct (env !! key) as [value|]; simpl.
  - unfold ParseBool. by repeat case_decide.
  - by destruct defaultVal.
Qed.

(** X13: [envAsBool] always returns: true or false when the variable is set
    to one of the six spellings of either that strconv.ParseBool accepts,
    and the default when the variable is not set or is set to anything else
    (the empty string, "yes", "on", other capitalisations). *)
Theorem envAsBool_accepts_twelve_spellings
    (env : gmap string string) (key : string) (defaultVal : bool) :
  result (envAsBool env key defaultVal) =
  Ret match env !! key with
      | Some value =>
          if decide (value ∈ ["1"; "t"; "T"; "TRUE"; "true"; "True"]) then true
          else if decide (value ∈ ["0"; "f"; "F"; "FALSE"; "false"; "False"]) then false
          else defaultVal
      | None => defaultVal
      end.
Proof. apply envAsBool_value. Qed.

Lemma newConfig_result env :
  result (newConfig env) =
  Ret {| DatadogAPIKey := default EmptyString (env !! "DD_API_KEY");
         DatadogAppKey := default EmptyString (env !! "DD_APP_KEY");
         ClusterName := default EmptyString (env !! "CLUSTER_NAME");
         OwnerTag := default "dd-manager" (env !! "OWNER");
         MonitorDefinitionsPath := envAsMap env "DEFINITIONS_PATH" ["conf.yml"] ";";
         Rulesets := None;
         DryRun := match result (envAsBool env "DRY_RUN" false) with
                   | Ret b => b
                   | Panic _ => false
                   end |}.
Proof.
  unfold newConfig.
  repeat (erewrite result_bind by apply getEnv_result).
  erewrite result_bind by apply envAsBool_value.
  by rewrite envAsBool_value.
Qed.

(** X14: when the initialisation of the singleton returns, the instance has
    the keys, cluster name, owner tag and paths the environment gives (the
    owner tag "dd-manager" and the single path "conf.yml" by default), its
    ruleset pointer is set to the rules of the sources that loaded, and it is
    in dry-run mode whenever one of the two Datadog keys is missing or
    empty. *)
Theorem initialise_instance
    (env : gmap string string) (src : Sources)
    (events : list InitEvent) (instance : Config) :
  initialise env src = (events, Ret instance) →
  DatadogAPIKey instance = default EmptyString (env !! "DD_API_KEY") ∧
  DatadogAppKey instance = default EmptyString (env !! "DD_APP_KEY") ∧
  ClusterName instance = default EmptyString (env !! "CLUSTER_NAME") ∧
  OwnerTag instance = default "dd-manager" (env !! "OWNER") ∧
  MonitorDefinitionsPath instance = envAsMap env "DEFINITIONS_PATH" ["conf.yml"] ";" ∧
  Rulesets instance =
    Some {| ClusterVariables := None;
            MonitorSets := loadedRules src (MonitorDefinitionsPath instance) |} ∧
  (DryRun instance = false →
   DatadogAPIKey instance ≠ EmptyString ∧ DatadogAppKey instance ≠ EmptyString).
Proof.
  unfold initialise.
  assert (Hloaded : ∀ r, result (instance ← newConfig env; reloadRulesets src instance) = Ret r →
            ∃ c, result (newConfig env) = Ret c ∧
                 r = set_Rulesets c (Some {| ClusterVariables := None;
                       MonitorSets := loadedRules src (MonitorDefinitionsPath c) |})).
  { intros r. erewrite result_bind by apply newConfig_result.
    rewrite reloadRulesets_result. case_decide; [done|]. intros [= <-].
    eexists. split; [apply newConfig_result | reflexivity]. }
  destruct (result (instance ← newConfig env; reloadRulesets src instance))
    as [r|msg]; [|done].
  destruct (Hloaded r eq_refl) as (c & Hc & ->).
  rewrite newConfig_result in Hc. injection Hc as <-.
  case_decide as Hkeys; intros [= _ <-]; simpl in *.
  - repeat split; done.
  - repeat split; try done; intros Heq; apply Hkeys; [by left | by right].
Qed.

Lemma initialise_instance_witness :
  OwnerTag (published [ruleA; ruleAB]) = default "dd-manager" (envKeys !! "OWNER") ∧
  MonitorDefinitionsPath (published [ruleA; ruleAB])
    = envAsMap envKeys "DEFINITIONS_PATH" ["conf.yml"] ";".
Proof.
  assert (Hrun : initialise envKeys (Loader.sources online parseDoc) =
                 ((initialise envKeys (Loader.sources online parseDoc)).1,
                  Ret (set_Rulesets
                         {| DatadogAPIKey := "k1"; DatadogAppKey := "k2";
                            ClusterName := EmptyString; OwnerTag := "dd-manager";
                            MonitorDefinitionsPath := ["a.yml"; "https://conf/b.yml"];
                            Rulesets := None; DryRun := false |}
                         (Rulesets (published [ruleA; ruleAB])))))
    by (vm_compute; reflexivity).
  pose proof (initialise_instance _ _ _ _ Hrun) as (_ & _ & _ & Howner & Hpaths & _).
  exact (conj Howner Hpaths).
Defined.

End EnvFurther.

(** ** Sync step *)

Section SyncFurther.
Import Sync Spec Facts Examples Inputs.

Lemma findByName_trace monitors name : trace (findByName monitors name) = [].
Proof.
  induction monitors as [|dd rest IH]; [done|]. simpl.
  destruct (datadog.Name dd) as [n|]; [|done].
  rewrite deref_Some, bind_ret_l. by case_decide.
Qed.

Lemma findByName_absent monitors name :
  absent monitors name → findByName monitors name = mret None.
Proof.
  induction 1 as [|p rest (n & Hn & Hne) _ IH]; [done|]. simpl.
  rewrite Hn, deref_Some, bind_ret_l. by rewrite decide_False.
Qed.

Lemma findByName_nameless before p after name :
  absent before name → datadog.Name p = None →
  result (findByName (before ++ p :: after) name) = Panic nil_deref.
Proof.
  intros Hbefore Hp.
  induction Hbefore as [|q rest (n & Hn & Hne) _ IH]; simpl.
  - by rewrite Hp.
  - rewrite Hn, deref_Some, bind_ret_l. by rewrite decide_False.
Qed.

Lemma toMonitor_trace dd : trace (toMonitor dd) = [].
Proof.
  unfold toMonitor.
  repeat (match goal with
          | |- context [deref ?p] => destruct p; [rewrite deref_Some, bind_ret_l|done]
          end).
  done.
Qed.

(** How [GetProvisionedMonitor] can end: after one listing call, with a
    monitor and no error, with an error and no monitor, or in a panic. *)
Lemma GetProvisionedMonitor_shape client config monitor :
  calls (trace (GetProvisionedMonitor client config monitor)) =
    [GetMonitorsByTags [OwnerTag config]] ∧
  (result (GetProvisionedMonitor client config monitor) = Panic nil_deref ∨
   (∃ dd, result (GetProvisionedMonitor client config monitor) = Ret (Some dd, None)) ∨
   (∃ e, result (GetProvisionedMonitor client config monitor) = Ret (None, Some e))).
Proof.
  unfold GetProvisionedMonitor, GetProvisionedMonitors.
  rewrite emit_then_ret, bind_value.
  destruct (onGetMonitorsByTags client [OwnerTag config]) as [monitors [e|]];
    cbv beta iota.
  - split; [done|]. right; right. by exists e.
  - pose proof (findByName_trace monitors (conf.Name monitor)) as Ht.
    destruct (findByName monitors (conf.Name monitor)) as [t [[dd|]|msg]] eqn:Hfind;
      simpl in Ht; subst t.
    + split; [done|]. right; left. by exists dd.
    + split; [done|]. right; right. by eexists.
    + split; [done|]. left.
      assert (Hmsg : result (findByName monitors (conf.Name monitor)) = Panic msg)
        by (by rewrite Hfind).
      clear Hfind. simpl. f_equal.
      induction monitors as [|q rest IH]; [done|]. simpl in Hmsg.
      destruct (datadog.Name q) as [n|]; [|by injection Hmsg as <-].
      rewrite deref_Some, bind_ret_l in Hmsg. case_decide; [done|]. by apply IH.
Qed.

(** X15: [GetProvisionedMonitor] issues exactly one backend call, the
    listing by the owner tag.  A listing error is returned as it is; a list
    in which no monitor has the name gives the error "Monitor does not
    exist."; the first monitor with the name is returned even when later
    ones share it; a monitor without a name that is met before a match makes
    the call panic. *)
Theorem GetProvisionedMonitor_cases
    (client : DatadogClient) (config : Config) (monitor : conf.Monitor)
    (monitors : list datadog.Monitor) (err : option error) :
  onGetMonitorsByTags client [OwnerTag config] = (monitors, err) →
  calls (trace (GetProvisionedMonitor client config monitor)) =
    [GetMonitorsByTags [OwnerTag config]] ∧
  (∀ e, err = Some e →
        result (GetProvisionedMonitor client config monitor) = Ret (None, Some e)) ∧
  (err = None → absent monitors (conf.Name monitor) →
   result (GetProvisionedMonitor client config monitor) =
     Ret (None, Some "Monitor does not exist.")) ∧
  (∀ dd, err = None → provisionedAs monitors (conf.Name monitor) dd →
         result (GetProvisionedMonitor client config monitor) = Ret (Some dd, None)) ∧
  (∀ before p after,
     err = None → monitors = before ++ p :: after →
     absent before (conf.Name monitor) → datadog.Name p = None →
     result (GetProvisionedMonitor client config monitor) = Panic nil_deref).
Proof.
  intros Hlist.
  split; [apply GetProvisionedMonitor_shape|].
  unfold GetProvisionedMonitor, GetProvisionedMonitors.
  rewrite Hlist, emit_then_ret, bind_value.
  split; [|split; [|split]].
  - by intros e ->.
  - intros -> Habs. cbv beta iota. by rewrite (findByName_absent _ _ Habs).
  - intros dd -> Hprov. cbv beta iota. by rewrite (findByName_first _ _ _ Hprov).
  - intros before p after -> -> Hbefore Hp. cbv beta iota. simpl.
    apply result_bind_panic. by apply findByName_nameless.
Qed.

Lemma GetProvisionedMonitor_cases_witness :
  result (GetProvisionedMonitor (clientWith [other]) config0 desired) =
    Ret (None, Some "Monitor does not exist.").
Proof.
  refine (proj1 (proj2 (proj2 (GetProvisionedMonitor_cases (clientWith [other]) config0
                                 desired [other] None eq_refl))) eq_refl _).
  repeat constructor. exists "mem". split; [reflexivity | discriminate].
Defined.

(** X16: converting a backend monitor returns, without logging, exactly
    when every pointer it follows is set (name, type, query, message, the
    options, their thresholds and the eight option fields it reads);
    otherwise it panics on a nil pointer. *)
Theorem toMonitor_returns_iff_complete (dd : datadog.Monitor) :
  ((∃ m, toMonitor dd = mret m) ↔ complete dd) ∧
  (¬ complete dd → toMonitor dd = MkM [] (Panic nil_deref)).
Proof.
  assert (Hcases : (complete dd ∧ ∃ m, toMonitor dd = mret m) ∨
                   (¬ complete dd ∧ toMonitor dd = MkM [] (Panic nil_deref))).
  { unfold toMonitor, complete.
    destruct dd as [id ty q n msg tags o]; simpl.
    destruct o as [[ndt na nnd ri nhd ed th em thr rfw lk]|]; simpl;
      [|right; split; [by intros (_ & _ & _ & _ & ? & ? & ? & _)|done]].
    destruct thr as [thr|];
      [|right; split; [intros (_ & _ & _ & _ & ? & ? & ? & ? & _); by simplify_eq|done]].
    destruct n as [n|];
      [|right; split; [by intros ([? ?] & _)|done]].
    destruct ty as [ty|];
      [|right; split; [by intros (_ & [? ?] & _)|done]].
    destruct q as [q|];
      [|right; split; [by intros (_ & _ & [? ?] & _)|done]].
    destruct msg as [msg|];
      [|right; split; [by intros (_ & _ & _ & [? ?] & _)|done]].
    destruct na as [na|];
      [|right; split;
        [intros (_ & _ & _ & _ & ? & ? & ? & ? & [? ?] & _); by simplify_eq|done]].
    destruct nnd as [nnd|];
      [|right; split;
        [intros (_ & _ & _ & _ & ? & ? & ? & ? & _ & [? ?] & _); by simplify_eq|done]].
    destruct ri as [ri|];
      [|right; split;
        [intros (_ & _ & _ & _ & ? & ? & ? & ? & _ & _ & [? ?] & _); by simplify_eq|done]].
    destruct nhd as [nhd|];
      [|right; split;
        [intros (_ & _ & _ & _ & ? & ? & ? & ? & _ & _ & _ & [? ?] & _);
         by simplify_eq|done]].
    destruct ed as [ed|];
      [|right; split;
        [intros (_ & _ & _ & _ & ? & ? & ? & ? & _ & _ & _ & _ & [? ?] & _);
         by simplify_eq|done]].
    destruct th as [th|];
      [|right; split;
        [intros (_ & _ & _ & _ & ? & ? & ? & ? & _ & _ & _ & _ & _ & [? ?] & _);
         by simplify_eq|done]].
    destruct em as [em|];
      [|right; split;
        [intros (_ & _ & _ & _ & ? & ? & ? & ? & _ & _ & _ & _ & _ & _ & [? ?] & _);
         by simplify_eq|done]].
    destruct rfw as [rfw|];
      [|right; split;
        [intros (_ & _ & _ & _ & ? & ? & ? & ? & _ & _ & _ & _ & _ & _ & _ & [? ?]);
         by simplify_eq|done]].
    left. split; [|by eexists].
    repeat split; eauto. eexists _, _. repeat split; eauto. }
  destruct Hcases as [[Hc [m Hm]]|[Hn Hp]].
  - split; [|done]. split; [done | by exists m].
  - split; [|done]. split; [|done]. intros [m Hm]. by rewrite Hp in Hm.
Qed.



Lemma GetProvisionedMonitor_absent client config monitor monitors :
  onGetMonitorsByTags client [OwnerTag config] = (monitors, None) →
  absent monitors (conf.Name monitor) →
  GetProvisionedMonitor client config monitor =
    MkM [ECall (GetMonitorsByTags [OwnerTag config])]
        (Ret (None, Some "Monitor does not exist.")).
Proof.
  intros Hlist Habs. unfold GetProvisionedMonitor, GetProvisionedMonitors.
  rewrite Hlist, emit_then_ret, bind_value. cbv beta iota.
  by rewrite (findByName_absent _ _ Habs), bind_ret_l.
Qed.

(** What [AddOrUpdate] does after the monitor was looked up without error
    and is not up to date. *)
Lemma AddOrUpdate_differs client config monitor monitors dd converted :
  onGetMonitorsByTags client [OwnerTag config] = (monitors, None) →
  provisionedAs monitors (conf.Name monitor) dd →
  toMonitor dd = mret converted →
  converted ≠ monitor →
  calls (trace (AddOrUpdate client config monitor)) =
    [GetMonitorsByTags [OwnerTag config]; UpdateMonitor (toDdMonitor monitor)] ∧
  result (AddOrUpdate client config monitor) =
    Ret (datadog.Id dd, onUpdateMonitor client (toDdMonitor monitor)).
Proof.
  intros Hlist Hprov Hconv Hne. unfold AddOrUpdate.
  rewrite (GetProvisionedMonitor_found _ _ _ _ _ Hlist Hprov).
  rewrite bind_value. cbv beta iota.
  rewrite !deref_Some, !bind_ret_l, Hconv, bind_ret_l.
  unfold DeepEqual. rewrite bool_decide_eq_false_2 by done.
  unfold updateMonitor. rewrite emit_then_ret, bind_value. cbv beta.
  rewrite bind_ret_l.
  by destruct (onUpdateMonitor client (toDdMonitor monitor)).
Qed.

(** X18: whatever the backend answers, [AddOrUpdate] first lists the
    provisioned monitors by the owner tag and then issues at most one more
    call, a create or an update that carries the desired monitor converted
    by [toDdMonitor] (which has no id); it never issues a delete. *)
Theorem AddOrUpdate_call_shape
    (client : DatadogClient) (config : Config) (monitor : conf.Monitor) :
  ∃ rest,
    calls (trace (AddOrUpdate client config monitor)) =
      GetMonitorsByTags [OwnerTag config] :: rest ∧
    (rest = [] ∨
     rest = [CreateMonitor (toDdMonitor monitor)] ∨
     rest = [UpdateMonitor (toDdMonitor monitor)]) ∧
    filter isDelete (calls (trace (AddOrUpdate client config monitor))) = [].
Proof.
  assert (Hshape : ∃ rest,
    calls (trace (AddOrUpdate client config monitor)) =
      GetMonitorsByTags [OwnerTag config] :: rest ∧
    (rest = [] ∨
     rest = [CreateMonitor (toDdMonitor monitor)] ∨
     rest = [UpdateMonitor (toDdMonitor monitor)])).
  { unfold AddOrUpdate.
    destruct (GetProvisionedMonitor_shape client config monitor) as [Hcalls Hres].
    destruct (GetProvisionedMonitor client config monitor) as [t r]; simpl in *.
    destruct Hres as [->|[[dd ->]|[e ->]]].
    - exists []. split; [|by left]. unfold mbind, M_bind, bind; simpl. done.
    - rewrite bind_value. cbv beta iota. cbn [trace]. rewrite calls_app, Hcalls.
      rewrite !deref_Some, !bind_ret_l.
      pose proof (toMonitor_trace dd) as Ht.
      destruct (toMonitor dd) as [t' [converted|msg]]; simpl in Ht; subst t'.
      + rewrite bind_value. cbv beta. cbn [trace]. rewrite app_nil_l.
        destruct (DeepEqual monitor converted).
        * exists []. split; [done | by left].
        * exists [UpdateMonitor (toDdMonitor monitor)]. split; [|by right; right].
          unfold updateMonitor.
          by destruct (onUpdateMonitor client (toDdMonitor monitor)).
      + exists []. split; [done | by left].
    - rewrite bind_value. cbv beta iota. cbn [trace]. rewrite calls_app, Hcalls.
      exists [CreateMonitor (toDdMonitor monitor)]. split; [|by right; left].
      unfold createMonitor.
      by destruct (onCreateMonitor client (toDdMonitor monitor)) as [[p|] [e'|]]. }
  destruct Hshape as (rest & Hcalls & Hrest).
  exists rest. split; [done|]. split; [done|]. rewrite Hcalls.
  by destruct Hrest as [->|[->| ->]].
Qed.

(** X19: when the listing succeeds and the first provisioned monitor of that
    name converts to a monitor that differs from the desired one, the sync
    step issues one update carrying the desired monitor and returns the
    provisioned monitor's id together with whatever error the update call
    returned. *)
Theorem AddOrUpdate_updates_when_different
    (client : DatadogClient) (config : Config) (monitor converted : conf.Monitor)
    (monitors : list datadog.Monitor) (dd : datadog.Monitor) :
  onGetMonitorsByTags client [OwnerTag config] = (monitors, None) →
  provisionedAs monitors (conf.Name monitor) dd →
  toMonitor dd = mret converted →
  converted ≠ monitor →
  calls (trace (AddOrUpdate client config monitor)) =
    [GetMonitorsByTags [OwnerTag config]; UpdateMonitor (toDdMonitor monitor)] ∧
  result (AddOrUpdate client config monitor) =
    Ret (datadog.Id dd, onUpdateMonitor client (toDdMonitor monitor)).
Proof. apply AddOrUpdate_differs. Qed.

Lemma AddOrUpdate_updates_when_different_witness :
  calls (trace (AddOrUpdate (clientWith [other; stale]) config0 desired)) =
    [GetMonitorsByTags [OwnerTag config0]; UpdateMonitor (toDdMonitor desired)] ∧
  result (AddOrUpdate (clientWith [other; stale]) config0 desired) =
    Ret (datadog.Id stale, onUpdateMonitor (clientWith [other; stale]) (toDdMonitor desired)).
Proof.
  apply (AddOrUpdate_updates_when_different (clientWith [other; stale]) config0 desired
           (conf.set_Query desired "avg(last_5m):avg:cpu{*} > 50") [other; stale] stale).
  - reflexivity.
  - exists [other], []. repeat split. repeat constructor.
    exists "mem". split; [reflexivity | discriminate].
  - reflexivity.
  - discriminate.
Defined.

(** X20: when the listing succeeds and no provisioned monitor has the
    desired monitor's name, the sync step issues one create carrying the
    desired monitor; it returns the created monitor's id, or no id and the
    error when the create call failed (which it also logs), and panics if the
    client returned neither a monitor nor an error. *)
Theorem AddOrUpdate_creates_when_absent
    (client : DatadogClient) (config : Config) (monitor : conf.Monitor)
    (monitors : list datadog.Monitor) :
  onGetMonitorsByTags client [OwnerTag config] = (monitors, None) →
  absent monitors (conf.Name monitor) →
  calls (trace (AddOrUpdate client config monitor)) =
    [GetMonitorsByTags [OwnerTag config]; CreateMonitor (toDdMonitor monitor)] ∧
  result (AddOrUpdate client config monitor) =
    match onCreateMonitor client (toDdMonitor monitor) with
    | (_, Some e) => Ret (None, Some e)
    | (Some provisioned, None) => Ret (datadog.Id provisioned, None)
    | (None, None) => Panic nil_deref
    end ∧
  errorsLogged (trace (AddOrUpdate client config monitor)) =
    match onCreateMonitor client (toDdMonitor monitor) with
    | (_, Some e) => ["Error creating monitor %s: %s"]
    | (_, None) => []
    end.
Proof.
  intros Hlist Habs. unfold AddOrUpdate.
  rewrite (GetProvisionedMonitor_absent _ _ _ _ Hlist Habs).
  rewrite bind_value. cbv beta iota.
  unfold createMonitor. rewrite emit_then_ret, bind_value. cbv beta iota.
  by destruct (onCreateMonitor client (toDdMonitor monitor)) as [[p|] [e|]].
Qed.

Lemma AddOrUpdate_creates_when_absent_witness :
  calls (trace (AddOrUpdate (clientWith [other]) config0 desired)) =
    [GetMonitorsByTags [OwnerTag config0]; CreateMonitor (toDdMonitor desired)].
Proof.
  refine (proj1 (AddOrUpdate_creates_when_absent (clientWith [other]) config0 desired
                   [other] eq_refl _)).
  repeat constructor. exists "mem". split; [reflexivity | discriminate].
Defined.

(** X21: a desired monitor whose [Locked] option is on is never found up to
    date: even when the provisioned monitor of its name is exactly what the
    sync step sends for it, the sync step issues an update. *)
Theorem locked_monitor_is_always_updated
    (client : DatadogClient) (config : Config) (monitor : conf.Monitor)
    (monitors : list datadog.Monitor) (dd : datadog.Monitor) :
  conf.Locked monitor = true →
  onGetMonitorsByTags client [OwnerTag config] = (monitors, None) →
  provisionedAs monitors (conf.Name monitor) dd →
  converged monitor dd →
  calls (trace (AddOrUpdate client config monitor)) =
    [GetMonitorsByTags [OwnerTag config]; UpdateMonitor (toDdMonitor monitor)].
Proof.
  intros Hlocked Hlist Hprov [id ->].
  eapply AddOrUpdate_differs; [done | done | apply toMonitor_toDdMonitor |].
  intros Heq. apply (f_equal conf.Locked) in Heq. simpl in Heq. congruence.
Qed.

Lemma locked_monitor_is_always_updated_witness :
  calls (trace (AddOrUpdate
                  (clientWith [datadog.set_Id (toDdMonitor (cpu None true)) (Some 7)])
                  config0 (cpu None true))) =
    [GetMonitorsByTags [OwnerTag config0]; UpdateMonitor (toDdMonitor (cpu None true))].
Proof.
  apply (locked_monitor_is_always_updated
           (clientWith [datadog.set_Id (toDdMonitor (cpu None true)) (Some 7)])
           config0 (cpu None true)
           [datadog.set_Id (toDdMonitor (cpu None true)) (Some 7)]
           (datadog.set_Id (toDdMonitor (cpu None true)) (Some 7))).
  - reflexivity.
  - reflexivity.
  - exists [], []. repeat split. constructor.
  - exists (Some 7). reflexivity.
Defined.

(** X22: whatever the backend answers, [DeleteMonitor] lists the
    provisioned monitors and issues no other call, in particular never a
    delete; it returns nil when a monitor of that name is provisioned and
    otherwise (listing error, or no monitor of that name) panics on a nil
    pointer. *)
Theorem DeleteMonitor_never_deletes
    (client : DatadogClient) (config : Config) (monitor : conf.Monitor) :
  calls (trace (DeleteMonitor client config monitor)) =
    [GetMonitorsByTags [OwnerTag config]] ∧
  (result (DeleteMonitor client config monitor) = Ret None ∨
   result (DeleteMonitor client config monitor) = Panic nil_deref) ∧
  (result (DeleteMonitor client config monitor) = Ret None ↔
   ∃ dd, result (GetProvisionedMonitor client config monitor) = Ret (Some dd, None)).
Proof.
  unfold DeleteMonitor.
  destruct (GetProvisionedMonitor_shape client config monitor) as [Hcalls Hres].
  destruct (GetProvisionedMonitor client config monitor) as [t r]; simpl in *.
  destruct Hres as [->|[[dd ->]|[e ->]]].
  - unfold mbind, M_bind, bind; simpl. split; [done|]. split; [by right|].
    split; [done | by intros [? [=]]].
  - rewrite bind_value. cbv beta iota. cbn [trace]. rewrite calls_app, Hcalls. simpl.
    split; [done|]. split; [by left|]. split; [by eexists | done].
  - rewrite bind_value. cbv beta iota. cbn [trace]. rewrite calls_app, Hcalls. simpl.
    split; [done|]. split; [by right|]. split; [done | by intros [? [=]]].
Qed.

End SyncFurther.

(** ** Template rendering and handlers *)

Section HandlerFurther.
Import Handler Spec Facts Examples Inputs.

(** How rendering ends: with the four text fields replaced when they all
    parse, in a panic otherwise. *)
Lemma applyDeploymentTemplate_cases engine deployment monitor :
  (parses engine monitor ∧
   ∃ name query msg em,
     result (applyDeploymentTemplate engine deployment monitor) =
       Ret (conf.set_EscalationMessage
              (conf.set_Message (conf.set_Query (conf.set_Name monitor name) query) msg)
              em)) ∨
  (¬ parses engine monitor ∧
   result (applyDeploymentTemplate engine deployment monitor) = Panic nil_deref).
Proof.
  unfold applyDeploymentTemplate, parses.
  destruct (Parse engine (conf.Name monitor)) as [[tn|] ?];
    destruct (Parse engine (conf.Query monitor)) as [[tq|] ?];
    destruct (Parse engine (conf.Message monitor)) as [[tm|] ?];
    destruct (Parse engine (conf.EscalationMessage monitor)) as [[te|] ?];
    cbn [fst];
    try (right; split;
         [ intros (? & ? & ? & ?);
           by repeat match goal with H : is_Some None |- _ => destruct H as [? [=]] end
         | rewrite ?executeInto_parsed;
           repeat match goal with
                  | |- context [Execute engine ?t deployment] =>
                      destruct (Execute engine t deployment) as [? [?|]]
                  end;
           reflexivity ]).
  left. split; [repeat split; by eexists|].
  rewrite !executeInto_parsed.
  destruct (Execute engine tn deployment) as [w1 [?|]];
    destruct (Execute engine tq deployment) as [w2 [?|]];
    destruct (Execute engine tm deployment) as [w3 [?|]];
    destruct (Execute engine te deployment) as [w4 [?|]];
    by exists w1, w2, w3, w4.
Qed.

(** X23: whenever rendering returns, every field of the monitor other than
    the four text fields (type, tags, thresholds, the notification options,
    [Locked]) is what it was before. *)
Theorem applyDeploymentTemplate_keeps_other_fields
    (engine : TemplateEngine) (deployment : Deployment)
    (monitor rendered : conf.Monitor) :
  result (applyDeploymentTemplate engine deployment monitor) = Ret rendered →
  conf.Type_ rendered = conf.Type_ monitor ∧
  conf.Tags rendered = conf.Tags monitor ∧
  conf.Thresholds_ rendered = conf.Thresholds_ monitor ∧
  conf.NoDataTimeframe rendered = conf.NoDataTimeframe monitor ∧
  conf.NotifyAudit rendered = conf.NotifyAudit monitor ∧
  conf.NotifyNoData rendered = conf.NotifyNoData monitor ∧
  conf.RenotifyInterval rendered = conf.RenotifyInterval monitor ∧
  conf.NewHostDelay rendered = conf.NewHostDelay monitor ∧
  conf.EvaluationDelay rendered = conf.EvaluationDelay monitor ∧
  conf.Timeout rendered = conf.Timeout monitor ∧
  conf.RequireFullWindow rendered = conf.RequireFullWindow monitor ∧
  conf.Locked rendered = conf.Locked monitor.
Proof.
  intros Hret.
  destruct (applyDeploymentTemplate_cases engine deployment monitor)
    as [[_ (n & q & m & e & Hres)]|[_ Hres]]; rewrite Hres in Hret; [|done].
  injection Hret as <-. by destruct monitor.
Qed.

Lemma applyDeploymentTemplate_keeps_other_fields_witness :
  conf.Type_ (template "cpu prod/api" "avg:cpu.") = conf.Type_ badQuery ∧
  conf.Tags (template "cpu prod/api" "avg:cpu.") = conf.Tags badQuery.
Proof.
  assert (Hret : result (applyDeploymentTemplate TextTemplate.engine api badQuery) =
                 Ret (template "cpu prod/api" "avg:cpu."))
    by (vm_compute; reflexivity).
  pose proof (applyDeploymentTemplate_keeps_other_fields _ _ _ _ Hret) as (Hty & Htags & _).
  exact (conj Hty Htags).
Defined.

(** X24: rendering returns exactly when each of the four text fields
    parses; if one of them does not, the parse error having been dropped,
    rendering panics on the nil template, also when the field that does not
    parse is the last one.  It never calls the backend. *)
Theorem applyDeploymentTemplate_panics_iff_unparsed
    (engine : TemplateEngine) (deployment : Deployment) (monitor : conf.Monitor) :
  ((∃ rendered, result (applyDeploymentTemplate engine deployment monitor) = Ret rendered) ↔
   parses engine monitor) ∧
  (result (applyDeploymentTemplate engine deployment monitor) = Panic nil_deref ↔
   ¬ parses engine monitor) ∧
  calls (trace (applyDeploymentTemplate engine deployment monitor)) = [].
Proof.
  split; [|split; [|apply silent_applyDeploymentTemplate]];
    destruct (applyDeploymentTemplate_cases engine deployment monitor)
      as [[Hp (n & q & m & e & Hres)]|[Hp Hres]]; rewrite Hres.
  - split; [done | by eexists].
  - split; [by intros [? [=]] | done].
  - split; [done | by intros Hn].
  - done.
Qed.

Lemma templateStep_result engine deployment monitor :
  result (log Info "looping monitor %s" [AStr (conf.Name monitor)];;
          _ ← applyDeploymentTemplate engine deployment monitor;
          (mret tt : M unit)) =
  if decide (parses engine monitor) then Ret tt else Panic nil_deref.
Proof.
  unfold log. rewrite bind_emit. cbn [result].
  destruct (applyDeploymentTemplate_cases engine deployment monitor)
    as [[Hp (n & q & m & e & Hres)]|[Hp Hres]].
  - rewrite decide_True by done. by erewrite result_bind by exact Hres.
  - rewrite decide_False by done. by apply result_bind_panic.
Qed.

Lemma templateAll_result engine deployment monitors :
  result (templateAll engine deployment monitors) =
  if decide (Forall (parses engine) monitors) then Ret tt else Panic nil_deref.
Proof.
  unfold templateAll. induction monitors as [|monitor rest IH].
  - by rewrite decide_True.
  - rewrite forRange_cons.
    pose proof (templateStep_result engine deployment monitor) as Hstep.
    destruct (decide (parses engine monitor)) as [Hp|Hp].
    + erewrite result_bind by exact Hstep. rewrite IH.
      destruct (decide (Forall (parses engine) rest)) as [Hr|Hr].
      * rewrite decide_True; [done | by constructor].
      * rewrite decide_False; [done | by inversion 1].
    + rewrite decide_False by (by inversion 1).
      by apply result_bind_panic.
Qed.

(** X25: each of the three deployment handlers returns normally when every
    text field of every matching monitor parses, and panics otherwise: one
    monitor template with a malformed placeholder makes the handler panic for
    every deployment that the monitor matches. *)
Theorem handlers_complete_iff_templates_parse
    (engine : TemplateEngine)
    (GetMatchingMonitors : gmap string string → string → list conf.Monitor)
    (deployment : Deployment) :
  let outcome :=
    if decide (Forall (parses engine)
                 (GetMatchingMonitors (d_Annotations deployment) "deployment"))
    then Ret tt else Panic nil_deref in
  result (OnCreatedDeployment engine GetMatchingMonitors deployment) = outcome ∧
  result (OnUpdatedDeployment engine GetMatchingMonitors deployment) = outcome ∧
  result (OnDeletedDeployment engine GetMatchingMonitors deployment) = outcome.
Proof.
  intros outcome. subst outcome.
  unfold OnCreatedDeployment, OnUpdatedDeployment, OnDeletedDeployment.
  split; [|split].
  - apply templateAll_result.
  - apply templateAll_result.
  - unfold log. rewrite bind_emit. cbn [result]. apply templateAll_result.
Qed.

End HandlerFurther.

(** ** Instances at concrete inputs *)

Section FurtherWitnesses.
Import Matcher Binding Sync Facts Examples Inputs.

Lemma toMonitor_returns_iff_complete_witness :
  toMonitor (ddMonitor "ns-cpu" None) = MkM [] (Panic nil_deref).
Proof.
  refine (proj2 (toMonitor_returns_iff_complete (ddMonitor "ns-cpu" None)) _).
  intros (_ & _ & _ & _ & options & thresholds & Hopts & _). discriminate Hopts.
Defined.

End FurtherWitnesses.

(** ** The binding path on the configuration *)

Section OnConfigFacts.
Import Spec Facts Traces Examples Inputs.

Lemma bind_value_ret {A B} (t : list Event) (a : A) (g : A → B) :
  (MkM t (Ret a) ≫= λ x, mret (g x)) = MkM t (Ret (g a)).
Proof. unfold mbind, M_bind, bind. simpl. by rewrite app_nil_r. Qed.

Lemma annotationLoop_logged annotations idx required flag :
  OnConfig.annotationLoop annotations idx required flag =
  MkM match firstUnmet annotations required with
      | Some a =>
          [ELog Info
             "Annotation %s with value %s does not exist, so monitor %d does not match"
             [AStr (a_Name a); AStr (a_Value a); AStr (pretty idx)]]
      | None => []
      end
      (Ret (Matcher.annotationLoop annotations required flag)).
Proof.
  revert flag. induction required as [|a rest IH]; intros flag; [done|].
  cbn [OnConfig.annotationLoop Matcher.annotationLoop firstUnmet].
  destruct (decide (present annotations a)) as [Hp|Hp]; unfold present in Hp.
  - rewrite Hp. rewrite !decide_True by done. apply IH.
  - destruct (annotations !! a_Name a) as [val|]; [|reflexivity].
    destruct (decide (val = a_Value a)) as [->|Hne]; [done | reflexivity].
Qed.

Lemma ruleLoop_logged annotations objectType monitorSets idx validMSets :
  OnConfig.ruleLoop annotations objectType monitorSets idx validMSets =
  MkM (mismatchLines annotations objectType monitorSets idx)
      (Ret (fold_left (Matcher.ruleStep annotations objectType) monitorSets validMSets)).
Proof.
  revert idx validMSets.
  induction monitorSets as [|rule rest IH]; intros idx validMSets; [done|].
  cbn [OnConfig.ruleLoop mismatchLines fold_left]. unfold Matcher.ruleStep at 2.
  destruct (decide (ObjectType rule = objectType)) as [Hty|Hty].
  - rewrite annotationLoop_logged, bind_value_ret, bind_value, IH. reflexivity.
  - rewrite bind_ret_l, IH. reflexivity.
Qed.

Lemma getMatchingRulesets_logged config rules annotations objectType :
  Rulesets config = Some rules →
  OnConfig.getMatchingRulesets config annotations objectType =
  MkM (mismatchLines annotations objectType (MonitorSets rules) 0)
      (Ret (Matcher.getMatchingRulesets rules annotations objectType)).
Proof.
  intros Hrules. unfold OnConfig.getMatchingRulesets.
  rewrite Hrules, deref_Some, bind_ret_l. apply ruleLoop_logged.
Qed.

Lemma mismatchLines_info annotations objectType monitorSets idx :
  errorsLogged (mismatchLines annotations objectType monitorSets idx) = [] ∧
  calls (mismatchLines annotations objectType monitorSets idx) = [].
Proof.
  revert idx. induction monitorSets as [|rule rest IH]; intros idx; [done|].
  cbn [mismatchLines]. rewrite errorsLogged_app, calls_app.
  destruct (IH (S idx)) as [-> ->].
  destruct (decide (ObjectType rule = objectType)); [|done].
  by destruct (firstUnmet annotations (Annotations rule)).
Qed.

(** On a configuration that holds a ruleset, the methods return what
    [Matcher] and [Binding] compute for that ruleset. *)
Lemma OnConfig_values config rules annotations objectType kube namespace :
  Rulesets config = Some rules →
  result (OnConfig.getMatchingRulesets config annotations objectType) =
    Ret (Matcher.getMatchingRulesets rules annotations objectType) ∧
  result (OnConfig.GetMatchingMonitors config annotations objectType) =
    Ret (Matcher.GetMatchingMonitors rules annotations objectType) ∧
  result (OnConfig.GetBoundMonitors kube config namespace objectType) =
    result (Binding.GetBoundMonitors kube rules namespace objectType).
Proof.
  intros Hrules. split; [|split].
  - by rewrite (getMatchingRulesets_logged _ _ _ _ Hrules).
  - unfold OnConfig.GetMatchingMonitors.
    by rewrite (getMatchingRulesets_logged _ _ _ _ Hrules), bind_value_ret.
  - unfold OnConfig.GetBoundMonitors, Binding.GetBoundMonitors.
    destruct (GetNamespace kube namespace) as [ann [e|]]; [done|].
    by rewrite (getMatchingRulesets_logged _ _ _ _ Hrules), bind_value_ret.
Qed.

(** X5: when the namespace can be read and the configuration holds a
    ruleset, the binding path returns the monitors of the rules of type
    "binding" that the namespace's annotations select and whose bound
    objects contain the object type, in declaration order, exactly as the
    ruleset holds them.  On the way it logs one info line for each rule of
    type "binding" that has a required annotation the namespace does not
    carry with that value, naming the first such annotation and the rule's
    index; it logs no error and calls no backend. *)
Theorem GetBoundMonitors_returns_bound_rules
    (kube : KubeClient) (config : Config) (rules : ruleset)
    (namespace objectType : string) (annotations : gmap string string) :
  GetNamespace kube namespace = (annotations, None) →
  Rulesets config = Some rules →
  OnConfig.GetBoundMonitors kube config namespace objectType =
    MkM (mismatchLines annotations "binding" (MonitorSets rules) 0)
        (Ret (mjoin (Monitors <$> filter (binds objectType)
                       (filter (selects annotations "binding") (MonitorSets rules))))) ∧
  errorsLogged (trace (OnConfig.GetBoundMonitors kube config namespace objectType)) = [] ∧
  calls (trace (OnConfig.GetBoundMonitors kube config namespace objectType)) = [].
Proof.
  intros Hns Hrules.
  assert (Hrun : OnConfig.GetBoundMonitors kube config namespace objectType =
    MkM (mismatchLines annotations "binding" (MonitorSets rules) 0)
        (Ret (mjoin (Monitors <$> filter (binds objectType)
                       (filter (selects annotations "binding") (MonitorSets rules)))))).
  { unfold OnConfig.GetBoundMonitors. rewrite Hns.
    rewrite (getMatchingRulesets_logged _ _ _ _ Hrules), bind_value_ret.
    by rewrite boundLoop_spec, getMatchingRulesets_spec. }
  rewrite Hrun. split; [done|]. apply mismatchLines_info.
Qed.

Lemma GetBoundMonitors_returns_bound_rules_witness :
  OnConfig.GetBoundMonitors kube1 boundConfig "prod" "deployment" =
  MkM [ELog Info "Annotation %s with value %s does not exist, so monitor %d does not match"
         [AStr "tier"; AStr "gold"; AStr "2"]]
      (Ret [ddMonitor "ns-cpu" (Some ["env:prod"])]).
Proof.
  exact (proj1 (GetBoundMonitors_returns_bound_rules kube1 boundConfig boundRules
                  "prod" "deployment" {[ "team" := "core" ]} eq_refl eq_refl)).
Defined.

(** X6: the binding path never calls the backend.  It panics, on the nil
    ruleset pointer, exactly when the namespace can be read and
    [config.Rulesets] is nil, and returns otherwise; when the namespace
    cannot be read it logs one error line and returns no monitor, also when
    [config.Rulesets] is nil, since the rulesets are not looked at. *)
Theorem GetBoundMonitors_panics_iff_no_ruleset
    (kube : KubeClient) (config : Config) (namespace objectType : string) :
  (result (OnConfig.GetBoundMonitors kube config namespace objectType) = Panic nil_deref ↔
   (GetNamespace kube namespace).2 = None ∧ Rulesets config = None) ∧
  ((∃ linked, result (OnConfig.GetBoundMonitors kube config namespace objectType) = Ret linked) ↔
   is_Some (GetNamespace kube namespace).2 ∨ is_Some (Rulesets config)) ∧
  calls (trace (OnConfig.GetBoundMonitors kube config namespace objectType)) = [] ∧
  (∀ e, (GetNamespace kube namespace).2 = Some e →
        OnConfig.GetBoundMonitors kube config namespace objectType =
          MkM [ELog Error "Error getting namespace %s: %+v" [AStr namespace; AStr e]]
              (Ret [])).
Proof.
  destruct (GetNamespace kube namespace) as [ann [e|]] eqn:Hns.
  - unfold OnConfig.GetBoundMonitors. rewrite Hns. cbn [snd].
    split; [split; [done | by intros [[=] _]]|].
    split; [split; [by left | by eexists]|].
    split; [done|]. by intros ? [= <-].
  - destruct (Rulesets config) as [rules|] eqn:Hrules.
    + destruct (GetBoundMonitors_returns_bound_rules kube config rules namespace
                  objectType ann Hns Hrules) as (Hrun & _ & Hcalls).
      rewrite Hcalls, Hrun. cbn [snd result].
      split; [split; [done | by intros [_ [=]]]|].
      split; [split; [by right | by eexists]|].
      split; [done|]. by intros ? [=].
    + unfold OnConfig.GetBoundMonitors, OnConfig.getMatchingRulesets.
      rewrite Hns, Hrules. cbn [snd].
      split; [done|].
      split; [split; [by intros [? [=]] | by intros [[? [=]]|[? [=]]]]|].
      split; [done|]. by intros ? [=].
Qed.

Lemma GetBoundMonitors_panics_iff_no_ruleset_witness :
  OnConfig.GetBoundMonitors kube1 config0 "dev" "deployment" =
    MkM [ELog Error "Error getting namespace %s: %+v"
           [AStr "dev"; AStr "namespaces not found"]]
        (Ret []) ∧
  result (OnConfig.GetBoundMonitors kube1 config0 "prod" "deployment") = Panic nil_deref.
Proof.
  split.
  - exact (proj2 (proj2 (proj2 (GetBoundMonitors_panics_iff_no_ruleset
                                  kube1 config0 "dev" "deployment")))
             "namespaces not found" eq_refl).
  - exact (proj2 (proj1 (GetBoundMonitors_panics_iff_no_ruleset
                           kube1 config0 "prod" "deployment"))
             (conj eq_refl eq_refl)).
Defined.

End OnConfigFacts.

(** ** The deletion handler *)

Section DeletionHandler.
Import Handler Spec Facts Traces Examples Inputs.

Lemma trace_bind_panic {A B} (m : M A) (f : A → M B) msg :
  result m = Panic msg → trace (m ≫= f) = trace m.
Proof. intros H. unfold mbind, M_bind, bind. by rewrite H. Qed.

Lemma log_bind {B} lvl format args (k : M B) :
  (log lvl format args ≫= λ _, k) = MkM (ELog lvl format args :: trace k) (result k).
Proof. reflexivity. Qed.

(** The loop the handlers share runs the rendering on one monitor after the
    other and stops where it does not return. *)
Lemma templateAll_trace engine deployment monitors :
  trace (templateAll engine deployment monitors) = rendered engine deployment monitors.
Proof.
  unfold templateAll. induction monitors as [|monitor rest IH]; [done|].
  rewrite forRange_cons. cbn [rendered]. rewrite log_bind.
  destruct (applyDeploymentTemplate engine deployment monitor) as [t [r|msg]].
  - rewrite (bind_value_ret t r (fun _ => tt)). cbn [trace result].
    rewrite bind_value. cbn [trace]. rewrite IH. reflexivity.
  - cbn [trace result]. rewrite app_nil_r. reflexivity.
Qed.

(** C4 (amended): for every deployment deletion event, the handler logs
    that it was reached and then takes the same path as the creation and
    update handlers: it computes the monitors matching the deployment's
    annotations for the type "deployment" and, announcing each one, runs the
    template rendering on them one after the other, as far as rendering
    returns.  Its trace is its entry line followed by the trace of the
    creation handler, its result is the creation handler's, and it issues no
    backend call, hence no delete. *)
Theorem OnDeletedDeployment_templates_like_create
    (engine : TemplateEngine)
    (GetMatchingMonitors : gmap string string → string → list conf.Monitor)
    (deployment : Deployment) :
  trace (OnDeletedDeployment engine GetMatchingMonitors deployment) =
    ELog Info "I finally made it to my deletion handler." []
    :: rendered engine deployment
         (GetMatchingMonitors (d_Annotations deployment) "deployment") ∧
  trace (OnCreatedDeployment engine GetMatchingMonitors deployment) =
    rendered engine deployment
      (GetMatchingMonitors (d_Annotations deployment) "deployment") ∧
  trace (OnUpdatedDeployment engine GetMatchingMonitors deployment) =
    rendered engine deployment
      (GetMatchingMonitors (d_Annotations deployment) "deployment") ∧
  trace (OnDeletedDeployment engine GetMatchingMonitors deployment) =
    ELog Info "I finally made it to my deletion handler." []
    :: trace (OnCreatedDeployment engine GetMatchingMonitors deployment) ∧
  result (OnDeletedDeployment engine GetMatchingMonitors deployment) =
    result (OnCreatedDeployment engine GetMatchingMonitors deployment) ∧
  result (OnDeletedDeployment engine GetMatchingMonitors deployment) =
    (if decide (Forall (parses engine)
                  (GetMatchingMonitors (d_Annotations deployment) "deployment"))
     then Ret tt else Panic nil_deref) ∧
  OnUpdatedDeployment engine GetMatchingMonitors deployment =
    OnCreatedDeployment engine GetMatchingMonitors deployment ∧
  calls (trace (OnDeletedDeployment engine GetMatchingMonitors deployment)) = [].
Proof.
  unfold OnDeletedDeployment, OnCreatedDeployment, OnUpdatedDeployment, log.
  rewrite bind_emit. cbn [trace result].
  rewrite !templateAll_trace, templateAll_result.
  repeat split.
  rewrite <- templateAll_trace. apply silent_templateAll.
Qed.

End DeletionHandler.
